(** * rTMS-NeuroMarkers: the preprocessing and loading helpers

  A shallow embedding of [src/preprocessing.py] and [src/utils.py].

  Conventions of the model.
  - A Python float and an entry of a float array is an IEEE 754 double:
    not-a-number, an infinity, or a rational number ([Module Float64]).
    The four operations round the exact result to the nearest double,
    ties to the even significand, and overflow to an infinity; each
    operation rounds on its own.  The sign of a zero is not modelled.
    The numbers given to [create_epochs] (start times, duration,
    sampling rate) are read as the doubles nearest to them, as Python
    reads a literal.  The signal of a recording is kept as exact
    rationals: the code modelled here moves samples of a recording and
    does no arithmetic on them.  [Raw.crop] is modelled on exact times:
    it moves its bounds to the nearest sample, which absorbs the
    rounding of the times given to it.
  - Python exceptions are values of [exn]; a call returns [result].
  - Objects that the code shares and updates in place (the ndarray given
    to [interpolate_nans], the list given to [realign_final_session],
    the recordings) live in an object store, addressed by reference.
  - The repository calls the toolkit (MNE, NumPy) for cropping, epoching,
    filtering and interpolation.  The toolkit methods it calls are
    modelled after their behaviour, in [Module Toolkit], [Module Numpy]
    and [Module Filter]; each such definition says what it covers.
    Recordings start at sample 0 ([first_samp = 0]), as [mne.io.RawArray]
    builds them.  The filter itself, like the other signal processing
    methods of the toolkit, is left uninterpreted. *)

From Stdlib Require Import ZArith QArith Qround Qabs Qminmax Qpower String Ascii Bool.
From Stdlib Require Import Lia Lqa.
From stdpp Require Import base option list gmap.

Local Open Scope Z_scope.

(** ** Exceptions and results *)

Inductive exn : Type :=
  | ValueError (msg : string)
  | RuntimeError (msg : string)
  | IndexError (msg : string)
  | TypeError (msg : string)
  | OverflowError (msg : string)
  | ZeroDivisionError (msg : string).

Inductive result (A : Type) : Type :=
  | Ok (a : A)
  | Raise (e : exn).
Arguments Ok {A} a.
Arguments Raise {A} e.

Definition is_ok {A} (r : result A) : bool :=
  match r with Ok _ => true | Raise _ => false end.

Definition rbind {A B} (r : result A) (k : A -> result B) : result B :=
  match r with Ok a => k a | Raise e => Raise e end.

(** ** Python built-ins, on the value of a finite float *)

Module Py.

(** [int(x)] on a float: truncation toward zero. *)
Definition int (x : Q) : Z := Z.quot (Qnum x) (Z.pos (Qden x)).

(** [round(x)] on a float: to the nearest integer, ties to even. *)
Definition round (x : Q) : Z :=
  let f := Qfloor x in
  match Qcompare (x - inject_Z f) (1 # 2) with
  | Lt => f
  | Gt => f + 1
  | Eq => if Z.even f then f else f + 1
  end.

(** [l[a:b]] for [0 <= a]; an empty slice when [b <= a]. *)
Definition slice {A} (a b : Z) (l : list A) : list A :=
  take (Z.to_nat (b - a)) (drop (Z.to_nat a) l).

(** [any(x == y for y in l)] on integers. *)
Fixpoint mem (x : Z) (l : list Z) : bool :=
  match l with
  | [] => false
  | y :: l' => (x =? y) || mem x l'
  end.

Fixpoint has_duplicates (l : list Z) : bool :=
  match l with
  | [] => false
  | x :: l' => mem x l' || has_duplicates l'
  end.

(** [[f(x) for x in l]]: the first exception ends the comprehension. *)
Fixpoint collect {A B} (f : A -> result B) (l : list A) : result (list B) :=
  match l with
  | [] => Ok []
  | x :: l' => rbind (f x) (fun y => rbind (collect f l') (fun ys => Ok (y :: ys)))
  end.

End Py.

(** ** Floats: IEEE 754 doubles *)

Module Float64.

Inductive float : Type :=
  | nan
  | inf (negative : bool)
  | num (q : Q).

Definition pow2 (e : Z) : Q := (2 ^ e)%Q.

(** The binary exponent of [q <> 0]: the [e] with [2^e <= |q| < 2^(e+1)]. *)
Definition exponent (q : Q) : Z :=
  let e := Z.log2 (Z.abs (Qnum q)) - Z.log2 (Z.pos (Qden q)) in
  if Qle_bool (pow2 e) (Qabs q) then e else e - 1.

(** The double nearest to [x], ties to the even significand: 53 bits of
    significand, and steps of [2^-1074] below the normal range.  The
    upper end of the range is the matter of [overflows]. *)
Definition rnd (x : Q) : Q :=
  let q := Qred x in
  if Qeq_bool q 0 then 0%Q
  else
    let s := Z.max (exponent q - 52) (-1074) in
    Qred (inject_Z (Py.round (q / pow2 s)) * pow2 s).

(** A rounded value beyond the largest double. *)
Definition overflows (r : Q) : bool := Qle_bool (pow2 1024) (Qabs r).

Definition negative (q : Q) : bool := Qnum q <? 0.

(** The float that the real number [x] becomes. *)
Definition of_Q (x : Q) : float :=
  let r := rnd x in
  if overflows r then inf (negative r) else num r.

Definition fneg (a : float) : float :=
  match a with
  | nan => nan
  | inf s => inf (negb s)
  | num q => num (- q)
  end.

Definition fadd (a b : float) : float :=
  match a, b with
  | nan, _ | _, nan => nan
  | inf s, inf s' => if Bool.eqb s s' then inf s else nan
  | inf s, num _ | num _, inf s => inf s
  | num p, num q => of_Q (p + q)
  end.

Definition fsub (a b : float) : float := fadd a (fneg b).

Definition fmul (a b : float) : float :=
  match a, b with
  | nan, _ | _, nan => nan
  | inf s, inf s' => inf (xorb s s')
  | inf s, num q | num q, inf s =>
      if Qeq_bool q 0 then nan else inf (xorb s (negative q))
  | num p, num q => of_Q (p * q)
  end.

(** Division as the hardware and NumPy do it: a division by zero gives
    an infinity, or [nan] for [0 / 0]. *)
Definition fdiv (a b : float) : float :=
  match a, b with
  | nan, _ | _, nan => nan
  | inf _, inf _ => nan
  | inf s, num q => inf (xorb s (negative q))
  | num _, inf _ => num 0
  | num p, num q =>
      if Qeq_bool q 0 then
        if Qeq_bool p 0 then nan else inf (negative p)
      else of_Q (p / q)
  end.

(** [a == b] on floats. *)
Definition feq (a b : float) : bool :=
  match a, b with
  | num p, num q => Qeq_bool p q
  | inf s, inf s' => Bool.eqb s s'
  | _, _ => false
  end.

(** Python's [a / b] on floats: a zero divisor is refused. *)
Definition truediv (a b : float) : result float :=
  match b with
  | num q =>
      if Qeq_bool q 0 then Raise (ZeroDivisionError "float division by zero")
      else Ok (fdiv a b)
  | _ => Ok (fdiv a b)
  end.

(** Python's [int(x)] on a float. *)
Definition to_int (x : float) : result Z :=
  match x with
  | nan => Raise (ValueError "cannot convert float NaN to integer")
  | inf _ => Raise (OverflowError "cannot convert float infinity to integer")
  | num q => Ok (Py.int q)
  end.


End Float64.

(** ** Recordings *)

(** One time point of a recording: the values of all channels there. *)
Definition frame := list Q.

(** An [mne.io.Raw]: the sampling rate of [info] and the signal, listed
  along the time axis. *)
Record Raw : Type := mkRaw {
  sfreq : Q;
  frames : list frame
}.

Definition n_times (raw : Raw) : Z := Z.of_nat (length (frames raw)).

(** An [mne.Epochs] with its data loaded: the anchors of the windows kept
  and the windows themselves. *)
Record Epochs : Type := mkEpochs {
  ep_sfreq : Q;
  ep_anchors : list Z;
  ep_windows : list (list frame)
}.

(** ** The toolkit methods the repository calls *)

Module Toolkit.

(** [Raw.crop(tmin, tmax)] with the default [include_tmax=True]: the
    bounds are checked against the recording, moved to the nearest
    sample, and both bounding samples are kept.  [tmax = None] stands
    for the last sample. *)
Definition crop (tmin : Q) (tmax : option Q) (raw : Raw) : result Raw :=
  let max_time := (inject_Z (n_times raw - 1) / sfreq raw)%Q in
  let tmax := default max_time tmax in
  if Qlt_le_dec tmax tmin then
    Raise (ValueError "tmin must be less than tmax")
  else if Qlt_le_dec tmin 0 then
    Raise (ValueError "tmin must be >= 0")
  else if Qlt_le_dec max_time tmax then
    Raise (ValueError "tmax must be less than or equal to the max time")
  else
    let smin := Py.round (tmin * sfreq raw) in
    let smax := Py.round (tmax * sfreq raw) in
    Ok (mkRaw (sfreq raw) (Py.slice smin (smax + 1) (frames raw))).

(** [Epochs(raw, events, event_id={"start": code}, tmin, tmax,
    baseline=None, preload=True)].  The events must be an array of
    integers (an empty list is not) with no value above [INT32_MAX];
    the events with the requested code are selected and two of them at
    one sample are refused; each window runs from sample
    [anchor + round(tmin * sfreq)] to sample [anchor + round(tmax * sfreq)],
    both included, the products being float products; a window that
    leaves the recording is dropped.  The recording starts at sample 0,
    so the sample of an event is its index in the signal. *)
Definition selected (code : Z) (events : list (Z * Z * Z)) : list Z :=
  omap (fun ev => if ev.2 =? code then Some ev.1.1 else None) events.

Definition INT32_MAX : Z := 2147483647.

(** The values that an array of 64-bit integers holds. *)
Definition in_int64 (z : Z) : bool := (- 2 ^ 63 <=? z) && (z <? 2 ^ 63).

Definition integer_array (events : list (Z * Z * Z)) : bool :=
  negb (bool_decide (events = []))
  && forallb (fun ev => in_int64 ev.1.1 && in_int64 ev.1.2 && in_int64 ev.2) events.

Definition exceeds_int32 (events : list (Z * Z * Z)) : bool :=
  existsb (fun ev => INT32_MAX <? Z.max ev.1.1 (Z.max ev.1.2 ev.2)) events.

Definition window_start (sf tmin : Q) : Z :=
  Py.round (Float64.rnd (Float64.rnd tmin * Float64.rnd sf)).

Definition window_length (sf tmin tmax : Q) : Z :=
  Py.round (Float64.rnd (Float64.rnd sf * Float64.rnd tmax)) + 1 - window_start sf tmin.

Definition fits (raw : Raw) (start len : Z) : bool :=
  (0 <=? start) && (start + len <=? n_times raw).

Definition epochs (raw : Raw) (events : list (Z * Z * Z)) (code : Z)
    (tmin : Q) (tmax : Float64.float) : result Epochs :=
  let anchors := selected code events in
  if negb (integer_array events) then
    Raise (TypeError "events should be a NumPy array of integers")
  else if exceeds_int32 events then
    Raise (ValueError "events array values must not exceed 2147483647")
  else if bool_decide (anchors = []) then
    Raise (ValueError "No matching events found")
  else if Py.has_duplicates anchors then
    Raise (RuntimeError "Event time samples were not unique")
  else
    match tmax with
    | Float64.nan => Raise (ValueError "cannot convert float NaN to integer")
    | Float64.inf true =>
        Raise (ValueError "tmin has to be less than or equal to tmax")
    | Float64.inf false =>
        Raise (OverflowError "cannot convert float infinity to integer")
    | Float64.num tmax =>
        let sf := sfreq raw in
        if Qlt_le_dec tmax (Float64.rnd tmin) then
          Raise (ValueError "tmin has to be less than or equal to tmax")
        else if Float64.overflows (Float64.rnd (Float64.rnd tmin * Float64.rnd sf))
                || Float64.overflows (Float64.rnd (Float64.rnd sf * Float64.rnd tmax))
        then
          Raise (OverflowError "cannot convert float infinity to integer")
        else
          let off := window_start sf tmin in
          let len := window_length sf tmin tmax in
          let kept := filter (fun a => fits raw (a + off) len = true) anchors in
          Ok (mkEpochs sf kept
                (map (fun a => Py.slice (a + off) (a + off + len) (frames raw)) kept))
    end.

End Toolkit.

(** ** preprocessing.py: [create_epochs] *)

(** The sample index of one event: [int(start_time * sfreq)], the
    product being the float product. *)
Definition event_sample (sf start_time : Q) : result Z :=
  Float64.to_int (Float64.fmul (Float64.of_Q start_time) (Float64.of_Q sf)).

Definition create_epochs (data : Raw) (start_times : list Q) (duration : Q)
  : result Epochs :=
  let sf := sfreq data in
  rbind (Py.collect
           (fun start_time =>
              rbind (event_sample sf start_time) (fun sample => Ok (sample, 0, 1)))
           start_times)
    (fun events =>
       rbind (Float64.truediv (Float64.num 1) (Float64.of_Q sf))
         (fun period =>
            Toolkit.epochs data events 1 0
              (Float64.fsub (Float64.of_Q duration) period))).

(** ** The array functions the repository calls *)

Module Numpy.

(** An entry of a float array is a double. *)
Export Float64.

(** An index as a float; indices are far below [2^53], so exact. *)
Definition of_int (z : Z) : float := num (inject_Z z).

(** [np.isnan(a)] *)
Definition isnan1 (a : float) : bool :=
  match a with nan => true | _ => false end.

Definition isnan (a : list float) : list bool := map isnan1 a.

(** [np.arange(n)] *)
Definition arange_from (k n : nat) : list Z := map Z.of_nat (seq k n).

Definition arange (n : nat) : list Z := arange_from 0 n.

(** [~mask] *)
Definition invert (mask : list bool) : list bool := map negb mask.

(** [a[mask]]: the entries of [a] where the mask holds, in order. *)
Fixpoint select {A} (mask : list bool) (a : list A) : list A :=
  match mask, a with
  | b :: mask', x :: a' => if b then x :: select mask' a' else select mask' a'
  | _, _ => []
  end.

(** [a[mask] = values]: the entries of [a] where the mask holds are
    replaced, in order, by the entries of [values]. *)
Fixpoint put {A} (mask : list bool) (a values : list A) : list A :=
  match mask, a with
  | b :: mask', x :: a' =>
      if b then
        match values with
        | v :: values' => v :: put mask' a' values'
        | [] => x :: put mask' a' []
        end
      else x :: put mask' a' values
  | _, _ => a
  end.

Definition assign_masked {A} (mask : list bool) (a values : list A)
    : result (list A) :=
  if bool_decide (length values = length (select mask a)) then
    Ok (put mask a values)
  else
    Raise (ValueError "boolean index assignment: shape mismatch").

(** The value at [x] of the line through [(x0, y0)] and [(x1, y1)], as
    [np.interp] computes it, in float arithmetic:
    [slope * (x - x0) + y0]; when that is [nan], the same from the other
    end, [slope * (x - x1) + y1]; when that is [nan] too and both ends
    are equal, their value. *)
Definition on_line (x0 : Z) (y0 : float) (x1 : Z) (y1 : float) (x : Z) : float :=
  let slope := fdiv (fsub y1 y0) (of_int (x1 - x0)) in
  let res := fadd (fmul slope (of_int (x - x0))) y0 in
  if isnan1 res then
    let res' := fadd (fmul slope (of_int (x - x1))) y1 in
    if isnan1 res' && feq y0 y1 then y0 else res'
  else res.

(** The interpolant right of the sample point [(x0, y0)], the remaining
    sample points being [xp], [fp]. *)
Fixpoint interp_from (x0 : Z) (y0 : float) (xp : list Z) (fp : list float)
    (x : Z) : float :=
  match xp, fp with
  | x1 :: xp', y1 :: fp' =>
      if x <? x1 then
        if x =? x0 then y0 else on_line x0 y0 x1 y1 x
      else interp_from x1 y1 xp' fp' x
  | _, _ => y0
  end.

Definition empty_sample_points : exn :=
  ValueError "array of sample points is empty".

(** [np.interp(x, xp, fp)] for increasing sample points [xp]: the
    piecewise linear interpolant through the points [(xp, fp)], evaluated
    at each entry of [x]; left of the first sample point it is [fp[0]],
    right of the last one [fp[-1]].  An empty [xp] is refused. *)
Definition interp (x xp : list Z) (fp : list float) : result (list float) :=
  match xp, fp with
  | [], _ => Raise empty_sample_points
  | x0 :: xp', y0 :: fp' =>
      if bool_decide (length xp' = length fp') then
        Ok (map (fun xi => if xi <? x0 then y0 else interp_from x0 y0 xp' fp' xi) x)
      else Raise (ValueError "fp and xp are not of the same length.")
  | _ :: _, [] => Raise (ValueError "fp and xp are not of the same length.")
  end.

End Numpy.

(** ** The object store *)

(** Python objects that are shared by reference and updated in place. *)
Inductive obj : Type :=
  | ORaw (raw : Raw)
  | OList (items : list nat)
  | OArray (rows : list (list Float64.float)).

Abbreviation store := (gmap nat obj).

(** A computation over a state [S] that may raise; an exception leaves
    the updates made so far in place. *)
Definition M (S A : Type) : Type := S -> result A * S.

#[global] Instance M_ret {S} : MRet (M S) := fun A a s => (Ok a, s).

#[global] Instance M_bind {S} : MBind (M S) := fun A B k c s =>
  match c s with
  | (Ok a, s') => k a s'
  | (Raise e, s') => (Raise e, s')
  end.

Definition raise {S A} (e : exn) : M S A := fun s => (Raise e, s).

Definition lift {S A} (r : result A) : M S A := fun s => (r, s).

Definition alloc (o : obj) : M store nat := fun s =>
  let r := fresh (dom s) in (Ok r, <[r := o]> s).

Definition load (r : nat) : M store obj := fun s =>
  match s !! r with
  | Some o => (Ok o, s)
  | None => (Raise (RuntimeError "dangling reference"), s)
  end.

Definition assign (r : nat) (o : obj) : M store unit := fun s =>
  (Ok tt, <[r := o]> s).

Definition load_raw (r : nat) : M store Raw :=
  o ← load r;
  match o with
  | ORaw raw => mret raw
  | _ => raise (TypeError "not a recording")
  end.

Definition load_list (r : nat) : M store (list nat) :=
  o ← load r;
  match o with
  | OList items => mret items
  | _ => raise (TypeError "not a list")
  end.

Definition load_array (r : nat) : M store (list (list Float64.float)) :=
  o ← load r;
  match o with
  | OArray rows => mret rows
  | _ => raise (TypeError "not an array")
  end.

(** [raw.copy()]: a new object with the same content. *)
Definition raw_copy (r : nat) : M store nat :=
  raw ← load_raw r;
  alloc (ORaw raw).

(** [raw.crop(tmin, tmax)]: crops the object itself and returns it. *)
Definition raw_crop (r : nat) (tmin : Q) (tmax : option Q) : M store nat :=
  raw ← load_raw r;
  cropped ← lift (Toolkit.crop tmin tmax raw);
  _ ← assign r (ORaw cropped);
  mret r.

(** A method of the toolkit that updates the recording it is called on
    and returns it; [method] gives the new content, or the exception. *)
Definition raw_method (method : Raw -> result Raw) (r : nat) : M store nat :=
  raw ← load_raw r;
  raw' ← lift (method raw);
  _ ← assign r (ORaw raw');
  mret r.

(** ** preprocessing.py: [realign_final_session] *)

Definition realign_final_session (mne_raw_sessions : nat) : M store nat :=
  sessions ← load_list mne_raw_sessions;
  raw_final_session ←
    lift (match last sessions with
          | Some r => Ok r
          | None => Raise (IndexError "list index out of range")
          end);
  final ← load_raw raw_final_session;
  let midpoint_samples := n_times final `div` 2 in
  let midpoint_time := (inject_Z midpoint_samples / sfreq final)%Q in
  copy1 ← raw_copy raw_final_session;
  raw_first_half ← raw_crop copy1 0 (Some midpoint_time);
  copy2 ← raw_copy raw_final_session;
  raw_second_half ← raw_crop copy2 midpoint_time None;
  sessions ← load_list mne_raw_sessions;
  _ ← assign mne_raw_sessions
        (OList (<[Nat.pred (length sessions) := raw_first_half]> sessions));
  sessions ← load_list mne_raw_sessions;
  _ ← assign mne_raw_sessions (OList (sessions ++ [raw_second_half]));
  mret mne_raw_sessions.

(** ** preprocessing.py: [interpolate_nans] *)

(** The body of the loop, on the row [channel_data]. *)
Definition interpolate_channel (channel_data : list Float64.float)
    : result (list Float64.float) :=
  let nans := Numpy.isnan channel_data in
  let indices := Numpy.arange (length channel_data) in
  rbind (Numpy.interp (Numpy.select nans indices)
           (Numpy.select (Numpy.invert nans) indices)
           (Numpy.select (Numpy.invert nans) channel_data))
    (fun values => Numpy.assign_masked nans channel_data values).

(** [for channel in channels: ...]; [data[channel]] is a view of the
    array, so the assignment writes into the array [data] refers to. *)
Fixpoint interpolate_loop (data : nat) (channels : list nat) : M store unit :=
  match channels with
  | [] => mret tt
  | channel :: channels' =>
      rows ← load_array data;
      channel_data ←
        lift (match rows !! channel with
              | Some row => Ok row
              | None => Raise (IndexError "index out of bounds")
              end);
      new_row ← lift (interpolate_channel channel_data);
      rows ← load_array data;
      _ ← assign data (OArray (<[channel := new_row]> rows));
      interpolate_loop data channels'
  end.

Definition interpolate_nans (data : nat) : M store nat :=
  rows ← load_array data;
  _ ← interpolate_loop data (seq 0 (length rows));
  mret data.

(** ** preprocessing.py: [bandpass_filter] *)

(** The filter that [Raw.filter(l_freq, h_freq)] designs from two numbers. *)
Inductive band : Type :=
  | LowPass (h_freq : Q)
  | BandPass (l_freq h_freq : Q)
  | BandStop (l_freq h_freq : Q).

Module Filter.

(** The width of a transition band that the toolkit chooses by default
    for the edge [freq]: a quarter of the edge, at least 2 Hz, and at
    most [limit], the room there is on the far side of the edge. *)
Definition auto_bandwidth (freq limit : Q) : Q :=
  Qmin (Qmax ((1 # 4) * freq) 2) limit.

(** What [Raw.filter(l_freq, h_freq)] makes of its two numbers before it
    designs the filter, with the defaults of the toolkit (an FIR filter
    with transition bands chosen by the toolkit).  An upper edge above
    the Nyquist frequency is refused.  A lower edge of zero gives a
    low-pass, [l_freq < h_freq] a band-pass, and any other pair a
    band-stop between [h_freq] and [l_freq].  Every transition band must
    have a positive width, which excludes a negative lower edge and an
    upper edge at the Nyquist frequency; the two transition bands of a
    band-stop must not run into each other.  What the design can still
    refuse afterwards (such as a filter too long to build) is not
    covered. *)
Definition triage (sf l_freq h_freq : Q) : result band :=
  let nyquist := (sf / 2)%Q in
  if Qlt_le_dec nyquist h_freq then
    Raise (ValueError "h_freq must be less than the Nyquist frequency")
  else if Qeq_bool l_freq 0 then
    if Qle_bool (auto_bandwidth h_freq (nyquist - h_freq)) 0 then
      Raise (ValueError "h_trans_bandwidth must be positive")
    else Ok (LowPass h_freq)
  else if Qlt_le_dec l_freq h_freq then
    if Qle_bool (auto_bandwidth l_freq l_freq) 0 then
      Raise (ValueError "l_trans_bandwidth must be positive")
    else if Qle_bool (auto_bandwidth h_freq (nyquist - h_freq)) 0 then
      Raise (ValueError "h_trans_bandwidth must be positive")
    else Ok (BandPass l_freq h_freq)
  else
    let lower := h_freq in
    let upper := l_freq in
    let lower_width := auto_bandwidth lower lower in
    let upper_width := auto_bandwidth upper (nyquist - upper) in
    if Qle_bool lower_width 0 then
      Raise (ValueError "l_trans_bandwidth must be positive")
    else if Qle_bool upper_width 0 then
      Raise (ValueError "h_trans_bandwidth must be positive")
    else if Qle_bool (lower + lower_width) upper
            && Qle_bool lower (upper - upper_width) then
      Ok (BandStop lower upper)
    else Raise (ValueError "Stop bands are not sufficiently separated").

(** [Raw.filter(l_freq, h_freq)] on the content of a recording; [kernel]
    stands for the design and the convolution, which the model leaves
    open: it gives the signal after filtering from the band, the
    sampling rate and the signal before. *)
Definition run (kernel : band -> Q -> list frame -> list frame)
    (l_freq h_freq : Q) (raw : Raw) : result Raw :=
  rbind (triage (sfreq raw) l_freq h_freq)
    (fun b => Ok (mkRaw (sfreq raw) (kernel b (sfreq raw) (frames raw)))).

End Filter.

Section Filtering.

(** The method [Raw.filter(l_freq, h_freq)] of the toolkit on the
    content of a recording. *)
Variable toolkit_filter : Q -> Q -> Raw -> result Raw.

Definition bandpass_filter (data : nat) (l_freq h_freq : Q) : M store nat :=
  copy ← raw_copy data;
  raw_method (toolkit_filter l_freq h_freq) copy.

End Filtering.

(** ** utils.py: [load_mne_data] *)

Module Str.

(** [s.endswith(suffix)] *)
Definition endswith (s suffix : string) : bool :=
  let n := String.length s in
  let m := String.length suffix in
  (m <=? n)%nat && String.eqb (String.substring (n - m) m s) suffix.

(** [s.startswith(prefix)] *)
Definition startswith (s prefix : string) : bool := String.prefix prefix s.

End Str.

Module Os.

(** [os.path.join(a, b)] on a POSIX system. *)
Definition path_join (a b : string) : string :=
  if Str.startswith b "/" then b
  else if String.eqb a "" || Str.endswith a "/" then String.append a b
  else String.append a (String.append "/" b).

End Os.

Section Loading.

(** The two readers of the toolkit act on the outside world (the file
    system); the model leaves both the world and the readers open. *)
Context {world container : Type}.
Variable read_raw_fif : string -> M world container.
Variable read_epochs : string -> M world container.

Definition invalid_format : exn :=
  ValueError "Invalid file format. Supported formats: _raw.fif, _epo.fif".

Definition load_mne_data (directory filename : string) : M world container :=
  let filepath := Os.path_join directory filename in
  if Str.endswith filename "_raw.fif" || Str.endswith filename "_epo.fif" then
    let loader_func :=
      if Str.endswith filename "_raw.fif" then read_raw_fif else read_epochs in
    data ← loader_func filepath;
    mret data
  else
    raise invalid_format.

End Loading.

(** ** Specification side: filling gaps from the nearest valid samples *)

Module Fill.

Import Numpy.

(** The first valid entry of [row], whose entries sit at the indices
    [k], [k + 1], ... *)
Fixpoint next_valid (k : nat) (row : list float) : option (Z * float) :=
  match row with
  | [] => None
  | x :: row' => if isnan1 x then next_valid (S k) row' else Some (Z.of_nat k, x)
  end.

(** Every missing entry becomes the value, at its index, of the line
    through the nearest valid entry before it ([prev]) and the nearest
    valid entry after it; with a valid entry on one side only, it becomes
    that entry. *)
Definition fill_value (prev next : option (Z * float)) (x : Z) : float :=
  match prev, next with
  | Some (a, va), Some (b, vb) => on_line a va b vb x
  | None, Some (_, vb) => vb
  | Some (_, va), None => va
  | None, None => nan
  end.

Fixpoint fill_gaps (prev : option (Z * float)) (k : nat) (row : list float)
    : list float :=
  match row with
  | [] => []
  | x :: row' =>
      if isnan1 x then
        fill_value prev (next_valid (S k) row') (Z.of_nat k)
          :: fill_gaps prev (S k) row'
      else x :: fill_gaps (Some (Z.of_nat k, x)) (S k) row'
  end.

Definition linear_fill (row : list float) : list float := fill_gaps None 0 row.

(** A row with at least one valid entry. *)
Definition has_valid (row : list float) : Prop :=
  Exists (fun x => isnan1 x = false) row.


(** The valid entries of [row] with their indices. *)
Fixpoint points (k : nat) (row : list float) : list (Z * float) :=
  match row with
  | [] => []
  | x :: row' =>
      if isnan1 x then points (S k) row' else (Z.of_nat k, x) :: points (S k) row'
  end.

(** The interpolant through a list of points. *)
Definition interp_pts (pts : list (Z * float)) (x : Z) : float :=
  match pts with
  | [] => nan
  | (x0, y0) :: pts' =>
      if x <? x0 then y0 else interp_from x0 y0 (map fst pts') (map snd pts') x
  end.

(** The row with every missing entry replaced by [g] of its index. *)
Fixpoint fill_with (g : Z -> float) (k : nat) (row : list float) : list float :=
  match row with
  | [] => []
  | x :: row' => (if isnan1 x then g (Z.of_nat k) else x) :: fill_with g (S k) row'
  end.

(** The rows as the loop of [interpolate_nans] leaves them, and the
    exception that stopped it, if any. *)
Fixpoint rows_after (step : list float -> result (list float))
    (rows : list (list float)) : list (list float) * option exn :=
  match rows with
  | [] => ([], None)
  | row :: rows' =>
      match step row with
      | Ok row' => let '(out, e) := rows_after step rows' in (row' :: out, e)
      | Raise e => (row :: rows', Some e)
      end
  end.

End Fill.

(** ** Example data *)

Module Examples.

Import Numpy.

(** A row with gaps between valid samples. *)
Definition gap_row : list float := [num 1; nan; num 3; nan; nan; num 6].

Definition gap_filled : list float := [num 1; num 2; num 3; num 4; num 5; num 6].

(** A store whose object 0 is a matrix with the single row [gap_row]. *)
Definition gap_store : store := <[0%nat := OArray [gap_row]]> ∅.

(** A store whose object 0 is a matrix with a row without valid samples. *)
Definition blank_store : store := <[0%nat := OArray [gap_row; [nan; nan]]]> ∅.

(** A recording of [n] samples of one channel, at 100 Hz. *)
Definition recording (n : nat) : Raw := mkRaw 100 (replicate n [0%Q]).

(** A session of four samples, and a store whose object 0 is the list
    of sessions holding just that session, object 1. *)
Definition four_samples : Raw := mkRaw 100 [[1%Q]; [2%Q]; [3%Q]; [4%Q]].

Definition session_store : store :=
  <[0%nat := OList [1%nat]]> (<[1%nat := ORaw four_samples]> ∅).

Definition samples_1_2_3 : Raw := mkRaw 100 [[1%Q]; [2%Q]; [3%Q]].

Definition samples_3_4 : Raw := mkRaw 100 [[3%Q]; [4%Q]].


(** The epochs of [recording 200] for the start time 0 s and the
    duration 0.045 s: four samples, because the float [0.045 - 1 / 100]
    is just below 0.035. *)
Definition short_epoch : Epochs :=
  mkEpochs 100 [0] [Py.slice 0 4 (frames (recording 200))].

(** A kernel to run the filter with: whether a call returns or raises
    does not depend on it. *)
Definition passthrough : band -> Q -> list frame -> list frame :=
  fun _ _ signal => signal.

(** A reader that logs the path it is asked to read. *)
Definition logging_reader (kind : string) : string -> M (list string) string :=
  fun path log => (Ok kind, path :: log).

End Examples.

(** ** preprocessing.py: [notch_filter], [re_reference], [signal_detrend] *)

(** The argument [ref_channels] of [re_reference]: the string "average"
    or a list of channel names. *)
Inductive reference : Type :=
  | Average
  | Channels (names : list string).

Section Forwarding.

(** The three methods of the toolkit, with their arguments, left
    uninterpreted: [Raw.notch_filter(freqs)],
    [Raw.set_eeg_reference(ref_channels)] and
    [Raw.apply_function(detrend, picks="eeg", channel_wise=True)]. *)
Variable toolkit_notch_filter : list Q -> Raw -> result Raw.
Variable toolkit_set_eeg_reference : reference -> Raw -> result Raw.
Variable toolkit_detrend : Raw -> result Raw.

Definition notch_filter (data : nat) (freqs : list Q) : M store nat :=
  copy ← raw_copy data;
  raw_method (toolkit_notch_filter freqs) copy.

Definition re_reference (data : nat) (ref_channels : reference) : M store nat :=
  copy ← raw_copy data;
  raw_method (toolkit_set_eeg_reference ref_channels) copy.

Definition signal_detrend (data : nat) : M store nat :=
  copy ← raw_copy data;
  raw_method toolkit_detrend copy.

End Forwarding.

(** ** Further definitions for the statements *)

Module Facts.

Import Numpy.


(** Two infinities of opposite sign: the line through them has no
    value. *)
Definition opposite_infinities (va vb : float) : bool :=
  match va, vb with
  | inf s, inf s' => negb (Bool.eqb s s')
  | _, _ => false
  end.

(** The gaps that stay missing: between two infinities of opposite
    sign, and in a row without a valid entry. *)
Definition stays_missing (prev next : option (Z * float)) : bool :=
  match prev, next with
  | Some (_, va), Some (_, vb) => opposite_infinities va vb
  | None, None => true
  | _, _ => false
  end.

(** A row that does not begin with a missing entry. *)
Definition starts_valid (row : list float) : Prop :=
  match head row with
  | Some x => isnan1 x = false
  | None => True
  end.

(** A row without missing entries that is not empty. *)
Definition complete (row : list float) : Prop :=
  row <> [] /\ Forall (fun x => isnan1 x = false) row.

(** What a call [run] of an operation that works on a copy leaves behind,
    for the method [method] and the recording [raw] given to it: every
    object of the store [σ] is as before; when the method succeeds the
    result is a new object holding the method's output, and when it
    raises the call raises the same exception. *)
Definition works_on_copy (σ : store) (raw : Raw) (method : Raw -> result Raw)
    (run : result nat * store) : Prop :=
  (forall (k : nat) (o : obj), σ !! k = Some o -> run.2 !! k = Some o)
  /\ match method raw with
     | Ok raw' =>
         exists c : nat, σ !! c = None /\ run.1 = Ok c /\ run.2 !! c = Some (ORaw raw')
     | Raise e => run.1 = Raise e
     end.

(** A toolkit method for the examples: it keeps the first sample only. *)
Definition keep_first (raw : Raw) : result Raw :=
  Ok (mkRaw (sfreq raw) (take 1 (frames raw))).

(** A toolkit method for the examples that refuses every recording. *)
Definition refuse (raw : Raw) : result Raw :=
  Raise (ValueError "refused").

End Facts.

(** * Properties *)

(** ** Numerics *)

Lemma int_nonneg (x : Q) : (0 <= x)%Q -> Py.int x = Qfloor x.
Proof.
  destruct x as [a b]. unfold Qle, Py.int, Qfloor. simpl. intros H.
  apply Z.quot_div_nonneg; lia.
Qed.

Lemma int_opp (x : Q) : Py.int (- x) = - Py.int x.
Proof.
  destruct x as [a b]. unfold Py.int. simpl. apply Z.quot_opp_l. lia.
Qed.

Lemma int_comp (x y : Q) : (x == y)%Q -> Py.int x = Py.int y.
Proof.
  intros E. destruct (Qlt_le_dec x 0) as [N | P].
  - assert (Hx : (0 <= - x)%Q) by (apply (Qopp_le_compat x 0); apply Qlt_le_weak, N).
    assert (Hy : (0 <= - y)%Q) by (rewrite <- E; exact Hx).
    apply Z.opp_inj. rewrite <- !int_opp, !int_nonneg by assumption.
    apply Qfloor_comp. now rewrite E.
  - assert (Hy : (0 <= y)%Q) by (rewrite <- E; exact P).
    rewrite !int_nonneg by assumption. now apply Qfloor_comp.
Qed.

Lemma round_comp (x y : Q) : (x == y)%Q -> Py.round x = Py.round y.
Proof.
  intros E. unfold Py.round.
  rewrite (Qfloor_comp _ _ E).
  assert (C : ((x - inject_Z (Qfloor y)) ?= (1 # 2))%Q
            = ((y - inject_Z (Qfloor y)) ?= (1 # 2))%Q).
  { apply Qcompare_comp; [ now rewrite E | reflexivity ]. }
  now rewrite C.
Qed.

Lemma round_inject_Z (z : Z) : Py.round (inject_Z z) = z.
Proof.
  unfold Py.round. rewrite Qfloor_Z.
  assert (C : ((inject_Z z - inject_Z z) ?= (1 # 2))%Q = Lt).
  { apply Qlt_alt. unfold Qminus. rewrite Qplus_opp_r. reflexivity. }
  now rewrite C.
Qed.

(** ** Floats *)

Import Numpy.

Lemma rnd_comp (x y : Q) : (x == y)%Q -> Float64.rnd x = Float64.rnd y.
Proof. intros E. unfold Float64.rnd. now rewrite (Qred_complete x y E). Qed.

Lemma of_Q_comp (x y : Q) : (x == y)%Q -> Float64.of_Q x = Float64.of_Q y.
Proof. intros E. unfold Float64.of_Q. now rewrite (rnd_comp x y E). Qed.

(** The rounding on known doubles: 0.1 is 3602879701896397 / 2^55; a tie
    goes to the even significand; the largest double is 2^1024 - 2^971,
    and from half a step above it a number overflows; half the smallest
    double, 2^-1075, rounds to zero. *)
Lemma rnd_known_doubles :
  Float64.rnd (1 # 10) = (3602879701896397 # 36028797018963968)%Q
  /\ Float64.rnd (inject_Z (2 ^ 53 + 1)) = inject_Z (2 ^ 53)
  /\ Float64.rnd (inject_Z (2 ^ 53 + 3)) = inject_Z (2 ^ 53 + 4)
  /\ of_Q (inject_Z (2 ^ 1024 - 2 ^ 970 - 1)) = num (inject_Z (2 ^ 1024 - 2 ^ 971))
  /\ of_Q (inject_Z (2 ^ 1024 - 2 ^ 970)) = inf false
  /\ Float64.rnd (Float64.pow2 (-1075)) = 0%Q
  /\ Float64.rnd (3 * Float64.pow2 (-1075)) = Qred (2 * Float64.pow2 (-1074)).
Proof. repeat split; vm_compute; reflexivity. Qed.

(** ** [create_epochs] *)

Lemma selected_events (anchors : list Z) :
  Toolkit.selected 1 (map (fun a => (a, 0, 1)) anchors) = anchors.
Proof.
  induction anchors as [| a anchors IH]; [ reflexivity |].
  change (a :: Toolkit.selected 1 (map (fun a => (a, 0, 1)) anchors) = a :: anchors).
  now rewrite IH.
Qed.

Lemma window_start_0 (sf : Q) : Toolkit.window_start sf 0 = 0.
Proof.
  unfold Toolkit.window_start. change (Float64.rnd 0) with 0%Q.
  rewrite (rnd_comp (0 * Float64.rnd sf) 0) by apply Qmult_0_l.
  reflexivity.
Qed.

(** The events that the comprehension of [create_epochs] builds. *)
Lemma collect_events (sf : Q) (ts : list Q) (events : list (Z * Z * Z)) :
  Py.collect
    (fun t => rbind (event_sample sf t) (fun sample => Ok (sample, 0, 1))) ts
  = Ok events ->
  exists anchors : list Z,
    events = map (fun a => (a, 0, 1)) anchors
    /\ Forall2 (fun t a => event_sample sf t = Ok a) ts anchors.
Proof.
  revert events. induction ts as [| t ts IH]; intros events H; cbn [Py.collect] in H.
  - injection H as <-. exists []. split; [ reflexivity | constructor ].
  - destruct (event_sample sf t) as [a |] eqn:Ea; cbn [rbind] in H; [| discriminate ].
    destruct (Py.collect _ ts) as [rest |] eqn:Er; cbn [rbind] in H; [| discriminate ].
    injection H as <-. destruct (IH rest eq_refl) as (anchors & -> & F).
    exists (a :: anchors). split; [ reflexivity | now constructor ].
Qed.

Lemma collect_events_ok (sf : Q) (ts : list Q) (anchors : list Z) :
  Forall2 (fun t a => event_sample sf t = Ok a) ts anchors ->
  Py.collect
    (fun t => rbind (event_sample sf t) (fun sample => Ok (sample, 0, 1))) ts
  = Ok (map (fun a => (a, 0, 1)) anchors).
Proof.
  induction 1 as [| t a ts anchors E _ IH]; [ reflexivity |].
  cbn [Py.collect map]. now rewrite E, IH.
Qed.

(** The toolkit call of [create_epochs] when it returns: the windows
    start at the anchors. *)
Lemma epochs_of_start_events (data : Raw) (anchors : list Z) (tmax : float)
    (ep : Epochs) :
  Toolkit.epochs data (map (fun a => (a, 0, 1)) anchors) 1 0 tmax = Ok ep ->
  exists t : Q,
    tmax = num t
    /\ (0 <= t)%Q
    /\ Py.has_duplicates anchors = false
    /\ Toolkit.exceeds_int32 (map (fun a => (a, 0, 1)) anchors) = false
    /\ ep = let len := Toolkit.window_length (sfreq data) 0 t in
            let kept := filter (fun a => Toolkit.fits data a len = true) anchors in
            mkEpochs (sfreq data) kept
              (map (fun a => Py.slice a (a + len) (frames data)) kept).
Proof.
  unfold Toolkit.epochs. rewrite selected_events. intros H.
  destruct (negb _); [ discriminate |].
  destruct (Toolkit.exceeds_int32 _) eqn:X; [ discriminate |].
  destruct (bool_decide _); [ discriminate |].
  destruct (Py.has_duplicates anchors) eqn:D; [ discriminate |].
  destruct tmax as [| [|] | t]; try discriminate.
  change (Float64.rnd 0) with 0%Q in H.
  destruct (Qlt_le_dec t 0) as [| T]; [ discriminate |].
  destruct (_ || _); [ discriminate |].
  injection H as <-. exists t. repeat split; try assumption.
  cbv zeta. rewrite window_start_0.
  match goal with
  | |- context [filter ?P ?l] =>
      rewrite (list_filter_iff P
        (fun a => Toolkit.fits data a
                    (Toolkit.window_length (sfreq data) 0 t) = true) l)
        by (intros a; now rewrite Z.add_0_r)
  end.
  f_equal. apply map_ext. intros a. now rewrite Z.add_0_r.
Qed.

Lemma create_epochs_inv (data : Raw) (start_times : list Q) (duration : Q)
    (ep : Epochs) :
  create_epochs data start_times duration = Ok ep ->
  exists (anchors : list Z) (tmax : Q),
    Forall2 (fun t a => event_sample (sfreq data) t = Ok a) start_times anchors
    /\ Float64.fsub (of_Q duration) (fdiv (num 1) (of_Q (sfreq data))) = num tmax
    /\ (0 <= tmax)%Q
    /\ Py.has_duplicates anchors = false
    /\ ep = let len := Toolkit.window_length (sfreq data) 0 tmax in
            let kept := filter (fun a => Toolkit.fits data a len = true) anchors in
            mkEpochs (sfreq data) kept
              (map (fun a => Py.slice a (a + len) (frames data)) kept).
Proof.
  unfold create_epochs. cbv zeta. intros H.
  destruct (Py.collect _ start_times) as [events |] eqn:C; cbn [rbind] in H;
    [| discriminate ].
  destruct (Float64.truediv _ _) as [period |] eqn:P; cbn [rbind] in H;
    [| discriminate ].
  assert (P' : period = fdiv (num 1) (of_Q (sfreq data))).
  { unfold Float64.truediv in P. repeat case_match; congruence. }
  subst period.
  destruct (collect_events _ _ _ C) as (anchors & -> & F).
  destruct (epochs_of_start_events _ _ _ _ H) as (t & Et & T & D & _ & ->).
  exists anchors, t. repeat split; assumption.
Qed.





(** C4: on a recording sampled at 100 Hz that holds the two windows (at
    least 400 samples), [create_epochs(c, [0, 2], 2)] gives exactly two
    windows, anchored at samples 0 and 200; each is 200 samples long,
    which is [round(duration * sfreq)]; the first is the samples
    [0, 200) and the second the samples [200, 400), so they share no
    sample. *)
Theorem create_epochs_two_windows (c : Raw) :
  (sfreq c == 100)%Q ->
  400 <= n_times c ->
  create_epochs c [0; 2]%Q 2 =
    Ok (mkEpochs (sfreq c) [0; 200]
          [Py.slice 0 200 (frames c); Py.slice 200 400 (frames c)])
  /\ length (Py.slice 0 200 (frames c)) = 200%nat
  /\ length (Py.slice 200 400 (frames c)) = 200%nat
  /\ Py.slice 0 200 (frames c) ++ Py.slice 200 400 (frames c) = Py.slice 0 400 (frames c)
  /\ Toolkit.window_length (sfreq c) 0 (2 - 1 / sfreq c) = Py.round (2 * sfreq c).
Proof.
  intros Hsf Hn.
  assert (E0 : event_sample (sfreq c) 0 = Ok 0).
  { unfold event_sample. rewrite (of_Q_comp _ _ Hsf). vm_compute. reflexivity. }
  assert (E2 : event_sample (sfreq c) 2 = Ok 200).
  { unfold event_sample. rewrite (of_Q_comp _ _ Hsf). vm_compute. reflexivity. }
  assert (R2 : Py.round (2 * sfreq c) = 200).
  { rewrite (round_comp _ (inject_Z 200)) by (now rewrite Hsf).
    apply round_inject_Z. }
  assert (L : Toolkit.window_length (sfreq c) 0 (2 - 1 / sfreq c) = 200).
  { unfold Toolkit.window_length. rewrite window_start_0.
    rewrite (rnd_comp (sfreq c) 100 Hsf).
    rewrite (rnd_comp (2 - 1 / sfreq c) (2 - 1 / 100)) by (now rewrite Hsf).
    vm_compute. reflexivity. }
  remember (Float64.rnd (Float64.rnd 2 + - Float64.rnd (1 / Float64.rnd 100)))
    as tmax eqn:Et.
  assert (T : Float64.fsub (Float64.of_Q 2) (fdiv (num 1) (Float64.of_Q 100))
              = num tmax) by (rewrite Et; vm_compute; reflexivity).
  assert (L' : Toolkit.window_length (sfreq c) 0 tmax = 200).
  { unfold Toolkit.window_length. rewrite window_start_0.
    rewrite (rnd_comp (sfreq c) 100 Hsf). rewrite Et. vm_compute. reflexivity. }
  unfold n_times in Hn.
  repeat split.
  - unfold create_epochs. cbv zeta. cbn [Py.collect]. rewrite E0, E2. cbn [rbind].
    rewrite (of_Q_comp _ _ Hsf).
    change (Float64.truediv (num 1) (Float64.of_Q 100))
      with (Ok (A := float) (fdiv (num 1) (Float64.of_Q 100))).
    cbn [rbind]. rewrite T.
    unfold Toolkit.epochs.
    change (Toolkit.selected 1 [(0, 0, 1); (200, 0, 1)]) with [0; 200].
    change (negb (Toolkit.integer_array [(0, 0, 1); (200, 0, 1)])) with false.
    change (Toolkit.exceeds_int32 [(0, 0, 1); (200, 0, 1)]) with false.
    rewrite bool_decide_eq_false_2 by discriminate.
    change (Py.has_duplicates [0; 200]) with false. cbv iota.
    change (Float64.rnd 0) with 0%Q.
    destruct (Qlt_le_dec tmax 0) as [N | _].
    { exfalso. rewrite Et in N. vm_compute in N. discriminate. }
    rewrite (rnd_comp (sfreq c) 100 Hsf).
    assert (O : Float64.overflows (Float64.rnd (0 * Float64.rnd 100))
                || Float64.overflows (Float64.rnd (Float64.rnd 100 * Float64.rnd tmax))
                = false) by (rewrite Et; vm_compute; reflexivity).
    rewrite O. cbv zeta. rewrite window_start_0, L'.
    assert (F0 : Toolkit.fits c (0 + 0) 200 = true).
    { unfold Toolkit.fits, n_times. apply andb_true_iff. split; apply Z.leb_le; lia. }
    assert (F2 : Toolkit.fits c (200 + 0) 200 = true).
    { unfold Toolkit.fits, n_times. apply andb_true_iff. split; apply Z.leb_le; lia. }
    rewrite filter_cons_True by exact F0.
    rewrite filter_cons_True by exact F2.
    rewrite filter_nil. reflexivity.
  - unfold Py.slice. rewrite length_take, length_drop. lia.
  - unfold Py.slice. rewrite length_take, length_drop. lia.
  - unfold Py.slice. simpl drop.
    change (Z.to_nat (400 - 200)) with 200%nat.
    change (Z.to_nat (200 - 0)) with 200%nat.
    change (Z.to_nat (400 - 0)) with (200 + 200)%nat.
    change (Z.to_nat 200) with 200%nat.
    apply take_take_drop.
  - rewrite L, R2. reflexivity.
Qed.

Lemma create_epochs_two_windows_witness :
  (sfreq (Examples.recording 400) == 100)%Q
  /\ 400 <= n_times (Examples.recording 400)
  /\ create_epochs (Examples.recording 400) [0; 2]%Q 2 =
       Ok (mkEpochs (sfreq (Examples.recording 400)) [0; 200]
             [Py.slice 0 200 (frames (Examples.recording 400));
              Py.slice 200 400 (frames (Examples.recording 400))]).
Proof.
  assert (H1 : (sfreq (Examples.recording 400) == 100)%Q) by reflexivity.
  assert (H2 : 400 <= n_times (Examples.recording 400)) by (vm_compute; discriminate).
  split; [ exact H1 | split; [ exact H2 |] ].
  exact (proj1 (create_epochs_two_windows (Examples.recording 400) H1 H2)).
Defined.

(** ** [load_mne_data] *)

Lemma bind_mret {S A} (c : M S A) (s : S) : (a ← c; mret a) s = c s.
Proof.
  unfold mbind, M_bind, mret, M_ret. destruct (c s) as [[a | e] s']; reflexivity.
Qed.

(** C7: [load_mne_data] dispatches on the suffix of the file name: a name
    ending in "_raw.fif" is read by the reader of continuous recordings,
    a name ending in "_epo.fif" by the reader of epochs, both on the
    joined path; any other name raises the error for an invalid format
    and leaves the outside world as it was, whatever the readers do: no
    reader is called. *)
Theorem load_mne_data_dispatch {world container : Type}
    (read_raw_fif read_epochs : string -> M world container)
    (directory filename : string) (w : world) :
  (Str.endswith filename "_raw.fif" = true ->
     load_mne_data read_raw_fif read_epochs directory filename w
     = read_raw_fif (Os.path_join directory filename) w)
  /\ (Str.endswith filename "_raw.fif" = false ->
      Str.endswith filename "_epo.fif" = true ->
     load_mne_data read_raw_fif read_epochs directory filename w
     = read_epochs (Os.path_join directory filename) w)
  /\ (Str.endswith filename "_raw.fif" = false ->
      Str.endswith filename "_epo.fif" = false ->
     load_mne_data read_raw_fif read_epochs directory filename w
     = (Raise invalid_format, w)).
Proof.
  unfold load_mne_data. repeat split.
  - intros ->. cbn [orb]. apply bind_mret.
  - intros -> ->. cbn [orb]. apply bind_mret.
  - intros -> ->. reflexivity.
Qed.

Lemma load_mne_data_dispatch_witness :
  load_mne_data (Examples.logging_reader "raw") (Examples.logging_reader "epochs")
      "data" "s01_raw.fif" []
    = (Ok "raw"%string, ["data/s01_raw.fif"%string])
  /\ load_mne_data (Examples.logging_reader "raw") (Examples.logging_reader "epochs")
      "data/" "s01_epo.fif" []
    = (Ok "epochs"%string, ["data/s01_epo.fif"%string])
  /\ load_mne_data (Examples.logging_reader "raw") (Examples.logging_reader "epochs")
      "data" "s01_raw.txt" []
    = (Raise invalid_format, []).
Proof.
  pose proof (load_mne_data_dispatch (Examples.logging_reader "raw")
                (Examples.logging_reader "epochs") "data" "s01_raw.fif" [])
    as (H1 & _ & _).
  pose proof (load_mne_data_dispatch (Examples.logging_reader "raw")
                (Examples.logging_reader "epochs") "data/" "s01_epo.fif" [])
    as (_ & H2 & _).
  pose proof (load_mne_data_dispatch (Examples.logging_reader "raw")
                (Examples.logging_reader "epochs") "data" "s01_raw.txt" [])
    as (_ & _ & H3).
  split; [ exact (H1 eq_refl) | split; [ exact (H2 eq_refl eq_refl) | exact (H3 eq_refl eq_refl) ] ].
Defined.

(** ** The object store *)

Lemma bind_ok {S A B} (c : M S A) (k : A -> M S B) (s s' : S) (a : A) :
  c s = (Ok a, s') -> (c ≫= k) s = k a s'.
Proof. unfold mbind, M_bind. now intros ->. Qed.

Lemma bind_raise {S A B} (c : M S A) (k : A -> M S B) (s s' : S) (e : exn) :
  c s = (Raise e, s') -> (c ≫= k) s = (Raise e, s').
Proof. unfold mbind, M_bind. now intros ->. Qed.

Lemma load_raw_eq (σ : store) (r : nat) (raw : Raw) :
  σ !! r = Some (ORaw raw) -> load_raw r σ = (Ok raw, σ).
Proof. intros H. unfold load_raw, mbind, M_bind, load. now rewrite H. Qed.

Lemma load_list_eq (σ : store) (r : nat) (items : list nat) :
  σ !! r = Some (OList items) -> load_list r σ = (Ok items, σ).
Proof. intros H. unfold load_list, mbind, M_bind, load. now rewrite H. Qed.

Lemma load_array_eq (σ : store) (r : nat) (rows : list (list float)) :
  σ !! r = Some (OArray rows) -> load_array r σ = (Ok rows, σ).
Proof. intros H. unfold load_array, mbind, M_bind, load. now rewrite H. Qed.

Lemma assign_eq (σ : store) (r : nat) (o : obj) :
  assign r o σ = (Ok tt, <[r := o]> σ).
Proof. reflexivity. Qed.

Lemma lift_ok {S A} (a : A) (s : S) : lift (Ok a) s = (Ok a, s).
Proof. reflexivity. Qed.

Lemma lift_raise {S A} (e : exn) (s : S) : lift (A := A) (Raise e) s = (Raise e, s).
Proof. reflexivity. Qed.

Lemma fresh_lookup (σ : store) : σ !! fresh (dom σ) = None.
Proof. apply not_elem_of_dom, is_fresh. Qed.

Lemma fresh_ne (σ : store) (r : nat) (o : obj) :
  σ !! r = Some o -> fresh (dom σ) ≠ r.
Proof. intros H E. rewrite <- E, fresh_lookup in H. discriminate. Qed.

Lemma raw_copy_eq (σ : store) (r : nat) (raw : Raw) :
  σ !! r = Some (ORaw raw) ->
  raw_copy r σ = (Ok (fresh (dom σ)), <[fresh (dom σ) := ORaw raw]> σ).
Proof.
  intros H. unfold raw_copy. rewrite (bind_ok _ _ _ _ _ (load_raw_eq _ _ _ H)).
  reflexivity.
Qed.

Lemma raw_crop_eq (σ : store) (r : nat) (raw raw' : Raw) (tmin : Q) (tmax : option Q) :
  σ !! r = Some (ORaw raw) ->
  Toolkit.crop tmin tmax raw = Ok raw' ->
  raw_crop r tmin tmax σ = (Ok r, <[r := ORaw raw']> σ).
Proof.
  intros H C. unfold raw_crop. rewrite (bind_ok _ _ _ _ _ (load_raw_eq _ _ _ H)).
  unfold lift at 1. unfold mbind at 1, M_bind at 1. rewrite C. reflexivity.
Qed.

(** ** [Raw.crop] at the midpoint *)

Lemma div_mul_sfreq (z : Z) (sf : Q) :
  (0 < sf)%Q -> Py.round (inject_Z z / sf * sf) = z.
Proof.
  intros P. rewrite (round_comp _ (inject_Z z)); [ apply round_inject_Z |].
  rewrite Qmult_comm. apply Qmult_div_r. intros E. rewrite E in P. discriminate.
Qed.

Lemma div_sfreq_le (a b : Z) (sf : Q) :
  (0 < sf)%Q -> a <= b -> (inject_Z a / sf <= inject_Z b / sf)%Q.
Proof.
  intros P H. unfold Qdiv. apply Qmult_le_compat_r.
  - now rewrite <- Zle_Qle.
  - apply Qlt_le_weak, Qinv_lt_0_compat, P.
Qed.

Lemma crop_first_half (raw : Raw) :
  (0 < sfreq raw)%Q -> 1 <= n_times raw ->
  Toolkit.crop 0 (Some (inject_Z (n_times raw `div` 2) / sfreq raw)%Q) raw
  = Ok (mkRaw (sfreq raw) (take (Z.to_nat (n_times raw `div` 2 + 1)) (frames raw))).
Proof.
  intros P N. unfold Toolkit.crop. cbn [default from_option id].
  pose proof (Z.div_pos (n_times raw) 2 ltac:(lia) ltac:(lia)) as M0.
  assert (M1 : n_times raw `div` 2 <= n_times raw - 1).
  { assert (n_times raw `div` 2 < n_times raw) by (apply Z.div_lt; lia). lia. }
  pose proof (div_sfreq_le 0 _ _ P M0) as Q0.
  pose proof (div_sfreq_le _ _ _ P M1) as Q1.
  assert (Z0 : (inject_Z 0 / sfreq raw == 0)%Q) by (unfold Qdiv; apply Qmult_0_l).
  rewrite Z0 in Q0.
  destruct (Qlt_le_dec _ 0) as [B | _]; [ exfalso; exact (Qlt_not_le _ _ B Q0) |].
  destruct (Qlt_le_dec 0 0) as [B | _]; [ discriminate B |].
  destruct (Qlt_le_dec _ _) as [B | _]; [ exfalso; exact (Qlt_not_le _ _ B Q1) |].
  rewrite div_mul_sfreq by exact P.
  rewrite (round_comp (0 * sfreq raw) (inject_Z 0)) by (now rewrite Qmult_0_l).
  rewrite round_inject_Z. unfold Py.slice. rewrite Z.sub_0_r. reflexivity.
Qed.

Lemma crop_second_half (raw : Raw) :
  (0 < sfreq raw)%Q -> 1 <= n_times raw ->
  Toolkit.crop (inject_Z (n_times raw `div` 2) / sfreq raw)%Q None raw
  = Ok (mkRaw (sfreq raw) (drop (Z.to_nat (n_times raw `div` 2)) (frames raw))).
Proof.
  intros P N. unfold Toolkit.crop. cbn [default from_option id].
  pose proof (Z.div_pos (n_times raw) 2 ltac:(lia) ltac:(lia)) as M0.
  assert (M1 : n_times raw `div` 2 <= n_times raw - 1).
  { assert (n_times raw `div` 2 < n_times raw) by (apply Z.div_lt; lia). lia. }
  pose proof (div_sfreq_le 0 _ _ P M0) as Q0.
  pose proof (div_sfreq_le _ _ _ P M1) as Q1.
  assert (Z0 : (inject_Z 0 / sfreq raw == 0)%Q) by (unfold Qdiv; apply Qmult_0_l).
  rewrite Z0 in Q0.
  destruct (Qlt_le_dec _ _) as [B | _]; [ exfalso; exact (Qlt_not_le _ _ B Q1) |].
  destruct (Qlt_le_dec _ 0) as [B | _]; [ exfalso; exact (Qlt_not_le _ _ B Q0) |].
  destruct (Qlt_le_dec _ _) as [B | _]; [ exfalso; exact (Qlt_irrefl _ B) |].
  rewrite !div_mul_sfreq by exact P. unfold Py.slice.
  f_equal. f_equal. apply take_ge. rewrite length_drop. unfold n_times. lia.
Qed.

(** ** [realign_final_session] *)

(** What a run of [realign_final_session] does to the store, for a list
    that ends with a recording of at least one sample: two new
    recordings are made, the copy cropped up to and including the
    midpoint sample and the copy cropped from the midpoint sample on, and
    the list object itself is updated. *)
Lemma realign_final_session_run (σ : store) (l r : nat) (pre : list nat) (raw : Raw) :
  σ !! l = Some (OList (pre ++ [r])) ->
  σ !! r = Some (ORaw raw) ->
  (0 < sfreq raw)%Q -> 1 <= n_times raw ->
  let mid := Z.to_nat (n_times raw `div` 2) in
  let first := mkRaw (sfreq raw) (take (S mid) (frames raw)) in
  let second := mkRaw (sfreq raw) (drop mid (frames raw)) in
  let a := fresh (dom σ) in
  let b := fresh (dom (<[a := ORaw first]> σ)) in
  realign_final_session l σ =
    (Ok l, <[l := OList (pre ++ [a; b])]>
             (<[b := ORaw second]> (<[a := ORaw first]> σ))).
Proof.
  intros Hl Hr P N mid first second a b.
  assert (Hal : a ≠ l) by (eapply fresh_ne; eassumption).
  assert (Har : a ≠ r) by (eapply fresh_ne; eassumption).
  set (σ1 := <[a := ORaw first]> σ).
  assert (Hl1 : σ1 !! l = Some (OList (pre ++ [r]))).
  { unfold σ1. now rewrite lookup_insert_ne. }
  assert (Hr1 : σ1 !! r = Some (ORaw raw)).
  { unfold σ1. now rewrite lookup_insert_ne. }
  assert (Hbl : b ≠ l) by (eapply fresh_ne; eassumption).
  set (σ2 := <[b := ORaw second]> σ1).
  assert (Hl2 : σ2 !! l = Some (OList (pre ++ [r]))).
  { unfold σ2. now rewrite lookup_insert_ne. }
  unfold realign_final_session.
  rewrite (bind_ok _ _ _ _ _ (load_list_eq _ _ _ Hl)).
  rewrite last_snoc.
  rewrite (bind_ok _ _ _ _ _ (lift_ok r σ)).
  rewrite (bind_ok _ _ _ _ _ (load_raw_eq _ _ _ Hr)).
  cbv zeta.
  rewrite (bind_ok _ _ _ _ _ (raw_copy_eq _ _ _ Hr)).
  fold a.
  rewrite (bind_ok _ _ _ _ _
             (raw_crop_eq _ a raw _ _ _ (lookup_insert_eq _ _ _) (crop_first_half raw P N))).
  rewrite insert_insert_eq.
  replace (Z.to_nat (n_times raw `div` 2 + 1)) with (S mid).
  2:{ unfold mid. pose proof (Z.div_pos (n_times raw) 2 ltac:(lia) ltac:(lia)). lia. }
  fold first. fold σ1.
  rewrite (bind_ok _ _ _ _ _ (raw_copy_eq _ _ _ Hr1)).
  fold b.
  rewrite (bind_ok _ _ _ _ _
             (raw_crop_eq _ b raw _ _ _ (lookup_insert_eq _ _ _) (crop_second_half raw P N))).
  rewrite insert_insert_eq. fold mid. fold second. fold σ2.
  rewrite (bind_ok _ _ _ _ _ (load_list_eq _ _ _ Hl2)).
  rewrite (bind_ok _ _ _ _ _ (assign_eq σ2 _ _)).
  rewrite (bind_ok _ _ _ _ _ (load_list_eq _ _ _ (lookup_insert_eq _ _ _))).
  rewrite (bind_ok _ _ _ _ _ (assign_eq _ _ _)).
  rewrite insert_insert_eq.
  unfold mret, M_ret. f_equal. f_equal. f_equal.
  rewrite length_app. cbn [length]. rewrite Nat.add_1_r. cbn [Nat.pred].
  rewrite (insert_app_r_alt pre [r] (length pre) a) by lia.
  rewrite Nat.sub_diag. cbn. rewrite <- app_assoc. reflexivity.
Qed.

(** C1: on the single session [s] of four samples 1, 2, 3, 4 the run
    gives the sessions 1, 2, 3 and 3, 4: the first one has
    [N // 2 + 1] samples, not [N // 2], the midpoint sample is in both,
    and the two together are not [s]. *)
Theorem realign_single_session_repeats_midpoint :
  realign_final_session 0 Examples.session_store =
    (Ok 0%nat,
     <[0%nat := OList [2%nat; 3%nat]]>
       (<[3%nat := ORaw Examples.samples_3_4]>
          (<[2%nat := ORaw Examples.samples_1_2_3]> Examples.session_store)))
  /\ n_times Examples.samples_1_2_3 = n_times Examples.four_samples `div` 2 + 1
  /\ n_times Examples.samples_3_4
     = n_times Examples.four_samples - n_times Examples.four_samples `div` 2
  /\ frames Examples.samples_1_2_3 ++ frames Examples.samples_3_4
     = [[1%Q]; [2%Q]; [3%Q]; [3%Q]; [4%Q]]
  /\ frames Examples.four_samples = [[1%Q]; [2%Q]; [3%Q]; [4%Q]].
Proof.
  split; [| repeat split ].
  assert (Hl : Examples.session_store !! 0%nat = Some (OList ([] ++ [1%nat])))
    by reflexivity.
  assert (Hr : Examples.session_store !! 1%nat = Some (ORaw Examples.four_samples))
    by reflexivity.
  rewrite (realign_final_session_run _ 0 1 [] _ Hl Hr);
    [ reflexivity | reflexivity | vm_compute; discriminate ].
Qed.

(** ** [interpolate_nans]: one row *)

Import Numpy Fill.

Lemma select_invert_indices (row : list float) (k : nat) :
  select (invert (isnan row)) (arange_from k (length row)) = map fst (points k row).
Proof.
  revert k. induction row as [| x row IH]; intros k; [ reflexivity |].
  cbn [length arange_from seq map isnan invert select points].
  fold (arange_from (S k) (length row)); fold (isnan row); fold (invert (isnan row)).
  destruct (isnan1 x); cbn [negb map fst]; rewrite IH; reflexivity.
Qed.

Lemma select_invert_values (row : list float) (k : nat) :
  select (invert (isnan row)) row = map snd (points k row).
Proof.
  revert k. induction row as [| x row IH]; intros k; [ reflexivity |].
  cbn [map isnan invert select points].
  fold (isnan row); fold (invert (isnan row)).
  destruct (isnan1 x); cbn [negb map snd]; rewrite (IH (S k)); reflexivity.
Qed.

Lemma length_select_indices (row : list float) (k : nat) :
  length (select (isnan row) (arange_from k (length row)))
  = length (select (isnan row) row).
Proof.
  revert k. induction row as [| x row IH]; intros k; [ reflexivity |].
  cbn [length arange_from seq map isnan select].
  fold (arange_from (S k) (length row)); fold (isnan row).
  destruct (isnan1 x); rewrite ?length_cons, IH; reflexivity.
Qed.

Lemma put_fill_with (g : Z -> float) (row : list float) (k : nat) :
  put (isnan row) row (map g (select (isnan row) (arange_from k (length row))))
  = fill_with g k row.
Proof.
  revert k. induction row as [| x row IH]; intros k; [ reflexivity |].
  cbn [length arange_from seq map isnan select put fill_with].
  fold (arange_from (S k) (length row)); fold (isnan row).
  destruct (isnan1 x); cbn [map]; rewrite IH; reflexivity.
Qed.

Lemma points_lower (row : list float) (k : nat) :
  Forall (fun p => Z.of_nat k <= p.1) (points k row).
Proof.
  revert k. induction row as [| x row IH]; intros k; cbn [points]; [ constructor |].
  assert (T : Forall (fun p => Z.of_nat k <= p.1) (points (S k) row)).
  { eapply Forall_impl; [ apply (IH (S k)) |]. cbn. intros; lia. }
  destruct (isnan1 x); [ exact T | constructor; [ cbn; lia | exact T ] ].
Qed.

Lemma next_valid_head (row : list float) (k : nat) :
  next_valid k row = head (points k row).
Proof.
  revert k. induction row as [| x row IH]; intros k; cbn [next_valid points];
    [ reflexivity |].
  destruct (isnan1 x); [ apply IH | reflexivity ].
Qed.

Lemma points_has_valid (row : list float) (k : nat) :
  has_valid row -> points k row <> [].
Proof.
  unfold has_valid. intros H. revert k.
  induction H as [x row H | x row H IH]; intros k; cbn [points].
  - rewrite H. discriminate.
  - destruct (isnan1 x); [ apply IH | discriminate ].
Qed.

Lemma points_no_valid (row : list float) (k : nat) :
  ~ has_valid row -> points k row = [].
Proof.
  unfold has_valid. revert k.
  induction row as [| x row IH]; intros k H; cbn [points]; [ reflexivity |].
  destruct (isnan1 x) eqn:N.
  - apply IH. intros E. apply H. now apply Exists_cons_tl.
  - exfalso. apply H. now apply Exists_cons_hd.
Qed.

(** The interpolant between the last point before [x] and the first
    point after it. *)
Lemma interp_from_split (x0 : Z) (y0 : float) (pts1 pts2 : list (Z * float)) (x : Z) :
  x0 < x ->
  Forall (fun p => p.1 < x) pts1 ->
  Forall (fun p => x < p.1) pts2 ->
  interp_from x0 y0 (map fst (pts1 ++ pts2)) (map snd (pts1 ++ pts2)) x
  = match head pts2 with
    | Some (b, vb) =>
        on_line (default (x0, y0) (last pts1)).1 (default (x0, y0) (last pts1)).2 b vb x
    | None => (default (x0, y0) (last pts1)).2
    end.
Proof.
  revert x0 y0. induction pts1 as [| [x1 y1] pts1 IH]; intros x0 y0 H0 H1 H2.
  - cbn [app last default from_option id fst snd].
    destruct pts2 as [| [b vb] pts2]; [ reflexivity |].
    cbn [map fst snd interp_from head].
    apply Forall_cons_1 in H2 as [Hb _]. cbn in Hb.
    rewrite (proj2 (Z.ltb_lt x b)) by exact Hb.
    rewrite (proj2 (Z.eqb_neq x x0)) by lia. reflexivity.
  - apply Forall_cons_1 in H1 as [Hx1 H1]. cbn in Hx1.
    cbn [app map fst snd interp_from].
    rewrite (proj2 (Z.ltb_ge x x1)) by lia.
    rewrite (IH x1 y1 Hx1 H1 H2).
    rewrite last_cons. destruct (last pts1) as [[a va] |]; reflexivity.
Qed.

Lemma interp_pts_split (pts1 pts2 : list (Z * float)) (x : Z) :
  Forall (fun p => p.1 < x) pts1 ->
  Forall (fun p => x < p.1) pts2 ->
  interp_pts (pts1 ++ pts2) x = fill_value (last pts1) (head pts2) x.
Proof.
  intros H1 H2. unfold fill_value. destruct pts1 as [| [x0 y0] pts1].
  - cbn [app last]. destruct pts2 as [| [b vb] pts2]; [ reflexivity |].
    cbn [interp_pts head]. apply Forall_cons_1 in H2 as [Hb _]. cbn in Hb.
    now rewrite (proj2 (Z.ltb_lt x b)) by exact Hb.
  - apply Forall_cons_1 in H1 as [Hx0 H1]. cbn in Hx0.
    cbn [app interp_pts]. rewrite (proj2 (Z.ltb_ge x x0)) by lia.
    rewrite (interp_from_split x0 y0 pts1 pts2 x Hx0 H1 H2).
    rewrite last_cons.
    destruct (last pts1) as [[a va] |], (head pts2) as [[b vb] |]; reflexivity.
Qed.

Lemma fill_with_interp (rest : list float) (k : nat) (pts1 : list (Z * float)) :
  Forall (fun p => p.1 < Z.of_nat k) pts1 ->
  fill_with (interp_pts (pts1 ++ points k rest)) k rest
  = fill_gaps (last pts1) k rest.
Proof.
  revert k pts1. induction rest as [| x rest IH]; intros k pts1 H1;
    cbn [fill_with fill_gaps points]; [ reflexivity |].
  destruct (isnan1 x) eqn:N.
  - rewrite (IH (S k) pts1).
    2:{ eapply Forall_impl; [ exact H1 |]. cbn. intros; lia. }
    f_equal. rewrite interp_pts_split; [ now rewrite next_valid_head | exact H1 |].
    eapply Forall_impl; [ apply points_lower |]. cbn. intros; lia.
  - f_equal.
    change ((Z.of_nat k, x) :: points (S k) rest)
      with ([(Z.of_nat k, x)] ++ points (S k) rest).
    rewrite app_assoc. rewrite (IH (S k) (pts1 ++ [(Z.of_nat k, x)])).
    + now rewrite last_snoc.
    + apply Forall_app. split.
      * eapply Forall_impl; [ exact H1 |]. cbn. intros; lia.
      * constructor; [ cbn; lia | constructor ].
Qed.

Lemma has_valid_dec (row : list float) : {has_valid row} + {~ has_valid row}.
Proof. unfold has_valid. apply Exists_dec. intros x. apply bool_dec. Qed.

Lemma interpolate_channel_valid (row : list float) :
  has_valid row -> interpolate_channel row = Ok (linear_fill row).
Proof.
  intros H. unfold interpolate_channel, arange, linear_fill.
  rewrite select_invert_indices, (select_invert_values row 0).
  pose proof (points_has_valid row 0 H) as NE.
  pose proof (fill_with_interp row 0 [] (Forall_nil_2 _)) as F.
  cbn [app last] in F. rewrite <- F.
  destruct (points 0 row) as [| [x0 y0] pts]; [ congruence |].
  cbn [map fst snd interp].
  rewrite bool_decide_eq_true_2 by (now rewrite !length_map).
  cbn [rbind]. unfold assign_masked.
  rewrite bool_decide_eq_true_2 by (rewrite length_map; apply length_select_indices).
  f_equal. apply (put_fill_with (interp_pts ((x0, y0) :: pts)) row 0).
Qed.

Lemma interpolate_channel_no_valid (row : list float) :
  ~ has_valid row -> interpolate_channel row = Raise empty_sample_points.
Proof.
  intros H. unfold interpolate_channel, arange.
  rewrite select_invert_indices, (points_no_valid row 0 H). reflexivity.
Qed.

(** ** [interpolate_nans]: the loop over the rows *)

Lemma interpolate_loop_run (data : nat) (todo done : list (list float)) (σ : store) :
  σ !! data = Some (OArray (done ++ todo)) ->
  interpolate_loop data (seq (length done) (length todo)) σ
  = (match (rows_after interpolate_channel todo).2 with
     | None => Ok tt
     | Some e => Raise e
     end,
     <[data := OArray (done ++ (rows_after interpolate_channel todo).1)]> σ).
Proof.
  revert done σ. induction todo as [| row todo IH]; intros done σ H.
  - cbn. rewrite insert_id by exact H. reflexivity.
  - cbn [length seq interpolate_loop rows_after].
    rewrite (bind_ok _ _ _ _ _ (load_array_eq _ _ _ H)).
    rewrite list_lookup_middle by reflexivity.
    rewrite (bind_ok _ _ _ _ _ (lift_ok row σ)).
    destruct (interpolate_channel row) as [row' | e].
    + rewrite (bind_ok _ _ _ _ _ (lift_ok row' σ)).
      rewrite (bind_ok _ _ _ _ _ (load_array_eq _ _ _ H)).
      rewrite (bind_ok _ _ _ _ _ (assign_eq σ _ _)).
      assert (U : <[length done := row']> (done ++ row :: todo) = (done ++ [row']) ++ todo).
      { rewrite (insert_app_r_alt done (row :: todo) (length done) row') by lia.
        rewrite Nat.sub_diag, <- app_assoc. reflexivity. }
      rewrite U.
      specialize (IH (done ++ [row']) (<[data := OArray ((done ++ [row']) ++ todo)]> σ)
                    (lookup_insert_eq _ _ _)).
      rewrite length_app, Nat.add_1_r in IH. rewrite IH.
      rewrite insert_insert_eq.
      destruct (rows_after interpolate_channel todo) as [out e].
      cbn [fst snd]. rewrite <- app_assoc. reflexivity.
    + rewrite (bind_raise _ _ _ _ _ (lift_raise e σ)).
      cbn [fst snd]. rewrite insert_id by exact H. reflexivity.
Qed.

Lemma interpolate_nans_run (data : nat) (rows : list (list float)) (σ : store) :
  σ !! data = Some (OArray rows) ->
  interpolate_nans data σ
  = (match (rows_after interpolate_channel rows).2 with
     | None => Ok data
     | Some e => Raise e
     end,
     <[data := OArray (rows_after interpolate_channel rows).1]> σ).
Proof.
  intros H. unfold interpolate_nans.
  rewrite (bind_ok _ _ _ _ _ (load_array_eq _ _ _ H)).
  pose proof (interpolate_loop_run data rows [] σ H) as L.
  cbn [length app] in L.
  destruct (rows_after interpolate_channel rows) as [out [e |]]; cbn [fst snd] in *.
  - now rewrite (bind_raise _ _ _ _ _ L).
  - now rewrite (bind_ok _ _ _ _ _ L).
Qed.

Lemma rows_after_valid (rows : list (list float)) :
  Forall has_valid rows ->
  rows_after interpolate_channel rows = (map linear_fill rows, None).
Proof.
  induction 1 as [| row rows H _ IH]; [ reflexivity |].
  cbn [rows_after map]. rewrite (interpolate_channel_valid row H), IH. reflexivity.
Qed.

Lemma rows_after_no_valid (rows : list (list float)) :
  Exists (fun row => ~ has_valid row) rows ->
  (rows_after interpolate_channel rows).2 = Some empty_sample_points.
Proof.
  induction 1 as [row rows H | row rows _ IH]; cbn [rows_after].
  - now rewrite (interpolate_channel_no_valid row H).
  - destruct (has_valid_dec row) as [V | V].
    + rewrite (interpolate_channel_valid row V).
      destruct (rows_after interpolate_channel rows) as [out e]. exact IH.
    + now rewrite (interpolate_channel_no_valid row V).
Qed.

(** ** [interpolate_nans]: where a filled entry is missing *)

Lemma next_valid_spec (row : list float) (k : nat) (b : Z) (vb : float) :
  next_valid k row = Some (b, vb) ->
  Z.of_nat k <= b /\ isnan1 vb = false /\ vb ∈ row.
Proof.
  revert k. induction row as [| x row IH]; intros k; cbn [next_valid]; [ discriminate |].
  destruct (isnan1 x) eqn:N.
  - intros H. destruct (IH _ H) as (? & ? & ?).
    split; [ lia | split; [ assumption | now apply list_elem_of_further ] ].
  - intros [= <- <-]. split; [ lia | split; [ exact N | apply list_elem_of_here ] ].
Qed.

Lemma next_valid_num (row : list float) (k : nat) (b : Z) (vb : float) :
  next_valid k row = Some (b, vb) -> isnan1 vb = false.
Proof. intros H. now destruct (next_valid_spec _ _ _ _ H) as (_ & ? & _). Qed.


Lemma of_Q_not_nan (x : Q) : isnan1 (of_Q x) = false.
Proof. unfold of_Q. now destruct (Float64.overflows _). Qed.

Lemma fadd_num_isnan (a : float) (p : Q) : isnan1 (fadd a (num p)) = isnan1 a.
Proof. destruct a; cbn [fadd isnan1]; [ reflexivity | reflexivity | apply of_Q_not_nan ]. Qed.

Lemma of_int_nonzero (z : Z) : z <> 0 -> Qeq_bool (inject_Z z) 0 = false.
Proof.
  intros H. destruct (Qeq_bool (inject_Z z) 0) eqn:E; [| reflexivity ].
  apply Qeq_bool_iff in E. unfold Qeq, inject_Z in E. cbn in E. lia.
Qed.

Lemma fmul_inf_of_int (s : bool) (z : Z) :
  z <> 0 -> fmul (inf s) (of_int z) = inf (xorb s (z <? 0)).
Proof. intros H. unfold of_int. cbn [fmul]. now rewrite (of_int_nonzero z H). Qed.

Lemma fdiv_inf_of_int (s : bool) (z : Z) :
  fdiv (inf s) (of_int z) = inf (xorb s (z <? 0)).
Proof. reflexivity. Qed.

Lemma fmul_of_int_isnan (a : float) (z : Z) :
  z <> 0 -> isnan1 (fmul a (of_int z)) = isnan1 a.
Proof.
  intros H. destruct a; [ reflexivity | now rewrite fmul_inf_of_int |].
  unfold of_int. cbn [fmul]. apply of_Q_not_nan.
Qed.

Lemma fdiv_of_int_isnan (a : float) (z : Z) :
  z <> 0 -> isnan1 (fdiv a (of_int z)) = isnan1 a.
Proof.
  intros H. unfold of_int. destruct a; cbn [fdiv isnan1]; try reflexivity.
  rewrite (of_int_nonzero z H). apply of_Q_not_nan.
Qed.

(** Between two valid entries the line has a value, unless they are
    infinities of opposite sign. *)
Lemma on_line_isnan (a b x : Z) (va vb : float) :
  a < x < b -> isnan1 va = false -> isnan1 vb = false ->
  isnan1 (on_line a va b vb x) = Facts.opposite_infinities va vb.
Proof.
  intros [Hax Hxb] Na Nb. unfold on_line.
  assert (S1 : (x - a <? 0) = false) by (apply Z.ltb_ge; lia).
  assert (S2 : (x - b <? 0) = true) by (apply Z.ltb_lt; lia).
  assert (S3 : (b - a <? 0) = false) by (apply Z.ltb_ge; lia).
  destruct va as [| s | p]; [ discriminate | |].
  - destruct vb as [| s' | q]; [ discriminate | |].
    + destruct s, s'; cbn [fsub fneg fadd negb Bool.eqb Facts.opposite_infinities];
        rewrite ?fdiv_inf_of_int, ?fmul_inf_of_int, ?S1, ?S2, ?S3 by lia;
        reflexivity.
    + cbn [fsub fneg fadd Facts.opposite_infinities].
      rewrite fdiv_inf_of_int, !fmul_inf_of_int, S1, S2, S3 by lia.
      destruct s; reflexivity.
  - cbn [Facts.opposite_infinities].
    assert (R : isnan1 (fadd (fmul (fdiv (fsub vb (num p)) (of_int (b - a)))
                                (of_int (x - a))) (num p)) = false).
    { rewrite fadd_num_isnan, fmul_of_int_isnan, fdiv_of_int_isnan by lia.
      unfold fsub. cbn [fneg]. now rewrite fadd_num_isnan. }
    now rewrite R.
Qed.


(** The value written into a gap is missing exactly in the gaps that
    [Facts.stays_missing] names. *)
Lemma fill_value_isnan (prev next : option (Z * float)) (x : Z) :
  (forall a va, prev = Some (a, va) -> a < x /\ isnan1 va = false) ->
  (forall b vb, next = Some (b, vb) -> x < b /\ isnan1 vb = false) ->
  isnan1 (fill_value prev next x) = Facts.stays_missing prev next.
Proof.
  intros P N. destruct prev as [[a va] |], next as [[b vb] |];
    cbn [fill_value Facts.stays_missing].
  - destruct (P a va eq_refl), (N b vb eq_refl). now apply on_line_isnan.
  - now destruct (P a va eq_refl).
  - now destruct (N b vb eq_refl).
  - reflexivity.
Qed.




(** ** [interpolate_nans]: the claims *)



(** The values written are the floats that [np.interp] computes, not the
    exact ones.  Between 2^53 and 2^53 + 2 the sum of 1 and 2^53 rounds
    to 2^53; between 1e308 and -1e308 the difference overflows and the
    entry becomes minus infinity; between infinities of opposite sign
    the entry stays missing. *)
Lemma linear_fill_float_arithmetic :
  linear_fill [num (inject_Z (2 ^ 53)); nan; num (inject_Z (2 ^ 53 + 2))] !! 1%nat
  = Some (num (inject_Z (2 ^ 53)))
  /\ linear_fill [of_Q (inject_Z (10 ^ 308)); nan; fneg (of_Q (inject_Z (10 ^ 308)))]
       !! 1%nat
     = Some (inf true)
  /\ linear_fill [inf false; nan; inf true] !! 1%nat = Some nan.
Proof. repeat split; vm_compute; reflexivity. Qed.

(** C6: on a matrix with a row that has no valid sample, the call of
    [interpolate_nans] raises the exception of [np.interp] for an empty
    array of sample points (the specification's [InsufficientDataError])
    and returns no result. *)
Theorem interpolate_nans_no_valid_sample (σ : store) (data : nat)
    (rows : list (list float)) :
  σ !! data = Some (OArray rows) ->
  Exists (Forall (fun x => isnan1 x = true)) rows ->
  (interpolate_nans data σ).1 = Raise empty_sample_points.
Proof.
  intros H E. rewrite (interpolate_nans_run data rows σ H). cbn [fst].
  rewrite rows_after_no_valid; [ reflexivity |].
  eapply Exists_impl; [ exact E |]. intros row A V. unfold has_valid in V.
  apply Exists_exists in V as (x & Hx & Nx).
  rewrite Forall_forall in A. specialize (A x Hx). congruence.
Qed.

Lemma interpolate_nans_no_valid_sample_witness :
  Examples.blank_store !! 0%nat = Some (OArray [Examples.gap_row; [nan; nan]])
  /\ Exists (Forall (fun x => isnan1 x = true)) [Examples.gap_row; [nan; nan]]
  /\ (interpolate_nans 0 Examples.blank_store).1 = Raise empty_sample_points.
Proof.
  assert (H : Examples.blank_store !! 0%nat
              = Some (OArray [Examples.gap_row; [nan; nan]])) by reflexivity.
  assert (E : Exists (Forall (fun x => isnan1 x = true)) [Examples.gap_row; [nan; nan]]).
  { apply Exists_cons_tl, Exists_cons_hd. repeat constructor. }
  split; [ exact H | split; [ exact E |] ].
  exact (interpolate_nans_no_valid_sample Examples.blank_store 0 _ H E).
Defined.

(** ** Updates in place *)

(** C3, as stated, fails: after [interpolate_nans] the matrix object
    given to it holds the interpolated row, and after
    [realign_final_session] the list object given to it holds two other
    sessions. *)
Lemma preprocessing_overwrites_input :
  Examples.gap_store !! 0%nat = Some (OArray [Examples.gap_row])
  /\ (interpolate_nans 0 Examples.gap_store).1 = Ok 0%nat
  /\ (interpolate_nans 0 Examples.gap_store).2 !! 0%nat
     = Some (OArray [linear_fill Examples.gap_row])
  /\ linear_fill Examples.gap_row <> Examples.gap_row
  /\ Examples.session_store !! 0%nat = Some (OList [1%nat])
  /\ (realign_final_session 0 Examples.session_store).1 = Ok 0%nat
  /\ (realign_final_session 0 Examples.session_store).2 !! 0%nat
     = Some (OList [2%nat; 3%nat]).
Proof.
  assert (H : Examples.gap_store !! 0%nat = Some (OArray [Examples.gap_row]))
    by reflexivity.
  assert (V : Forall has_valid [Examples.gap_row]).
  { constructor; [ apply Exists_cons_hd; reflexivity | constructor ]. }
  rewrite (interpolate_nans_run 0 _ _ H), (rows_after_valid _ V).
  assert (Hl : Examples.session_store !! 0%nat = Some (OList ([] ++ [1%nat])))
    by reflexivity.
  assert (Hr : Examples.session_store !! 1%nat = Some (ORaw Examples.four_samples))
    by reflexivity.
  rewrite (realign_final_session_run _ 0 1 [] _ Hl Hr);
    [| reflexivity | vm_compute; discriminate ].
  cbn [fst snd map]. rewrite !lookup_insert_eq.
  repeat split; try reflexivity. vm_compute. discriminate.
Qed.

(** C3, amended: [interpolate_nans] writes the interpolated rows into
    the matrix object it is given and returns that object; every other
    object of the store is as before.  [realign_final_session] updates
    the list object it is given and returns it: the last entry becomes a
    new recording and another new recording is appended; every other
    object, so each recording that was in the list, is as before. *)
Theorem preprocessing_in_place (σ : store) :
  (forall (data : nat) (rows : list (list float)),
     σ !! data = Some (OArray rows) ->
     Forall has_valid rows ->
     exists σ' : store,
       interpolate_nans data σ = (Ok data, σ')
       /\ σ' !! data = Some (OArray (map linear_fill rows))
       /\ forall k : nat, k ≠ data -> σ' !! k = σ !! k)
  /\ (forall (l r : nat) (pre : list nat) (raw : Raw),
        σ !! l = Some (OList (pre ++ [r])) ->
        σ !! r = Some (ORaw raw) ->
        (0 < sfreq raw)%Q -> 1 <= n_times raw ->
        exists (a b : nat) (σ' : store),
          realign_final_session l σ = (Ok l, σ')
          /\ σ !! a = None /\ σ !! b = None /\ a ≠ b
          /\ σ' !! l = Some (OList (pre ++ [a; b]))
          /\ forall k : nat, is_Some (σ !! k) -> k ≠ l -> σ' !! k = σ !! k).
Proof.
  split.
  - intros data rows H V. eexists. split; [| split ].
    + rewrite (interpolate_nans_run data rows σ H), (rows_after_valid rows V).
      reflexivity.
    + apply lookup_insert_eq.
    + intros k Hk. now apply lookup_insert_ne.
  - intros l r pre raw Hl Hr P N.
    pose proof (realign_final_session_run σ l r pre raw Hl Hr P N) as R.
    cbv zeta in R.
    remember (fresh (dom σ)) as a eqn:Ea.
    remember (ORaw (mkRaw (sfreq raw)
                (take (S (Z.to_nat (n_times raw `div` 2))) (frames raw)))) as first.
    remember (fresh (dom (<[a := first]> σ))) as b eqn:Eb.
    assert (Ha : σ !! a = None) by (rewrite Ea; apply fresh_lookup).
    assert (Hb : <[a := first]> σ !! b = None) by (rewrite Eb; apply fresh_lookup).
    assert (Hab : a ≠ b).
    { intros E. rewrite <- E, lookup_insert_eq in Hb. discriminate. }
    exists a, b. eexists. split; [ exact R |]. repeat split.
    + exact Ha.
    + now rewrite lookup_insert_ne in Hb.
    + exact Hab.
    + apply lookup_insert_eq.
    + intros k [o Hk] Hkl.
      rewrite lookup_insert_ne by congruence.
      rewrite lookup_insert_ne.
      2:{ intros E. rewrite E, lookup_insert_ne, Hk in Hb by congruence. discriminate. }
      rewrite lookup_insert_ne by congruence. reflexivity.
Qed.

Lemma preprocessing_in_place_witness :
  (exists σ' : store,
     interpolate_nans 0 Examples.gap_store = (Ok 0%nat, σ')
     /\ σ' !! 0%nat = Some (OArray (map linear_fill [Examples.gap_row]))
     /\ forall k : nat, k ≠ 0%nat -> σ' !! k = Examples.gap_store !! k)
  /\ (exists (a b : nat) (σ' : store),
        realign_final_session 0 Examples.session_store = (Ok 0%nat, σ')
        /\ Examples.session_store !! a = None
        /\ Examples.session_store !! b = None /\ a ≠ b
        /\ σ' !! 0%nat = Some (OList ([] ++ [a; b]))
        /\ forall k : nat,
             is_Some (Examples.session_store !! k) -> k ≠ 0%nat ->
             σ' !! k = Examples.session_store !! k).
Proof.
  split.
  - apply (proj1 (preprocessing_in_place Examples.gap_store) 0%nat [Examples.gap_row]).
    + reflexivity.
    + constructor; [ apply Exists_cons_hd; reflexivity | constructor ].
  - apply (proj2 (preprocessing_in_place Examples.session_store)
             0%nat 1%nat [] Examples.four_samples).
    + reflexivity.
    + reflexivity.
    + reflexivity.
    + vm_compute. discriminate.
Defined.

(** ** The operations that work on a copy *)

Lemma on_copy_run (method : Raw -> result Raw) (σ : store) (data : nat) (raw : Raw) :
  σ !! data = Some (ORaw raw) ->
  (raw_copy data ≫= raw_method method) σ
  = match method raw with
    | Ok raw' => (Ok (fresh (dom σ)), <[fresh (dom σ) := ORaw raw']> σ)
    | Raise e => (Raise e, <[fresh (dom σ) := ORaw raw]> σ)
    end.
Proof.
  intros H. rewrite (bind_ok _ _ _ _ _ (raw_copy_eq _ _ _ H)). unfold raw_method.
  rewrite (bind_ok _ _ _ _ _ (load_raw_eq _ _ _ (lookup_insert_eq _ _ _))).
  destruct (method raw) as [raw' | e].
  - rewrite (bind_ok _ _ _ _ _ (lift_ok raw' _)).
    rewrite (bind_ok _ _ _ _ _ (assign_eq _ _ _)).
    rewrite insert_insert_eq. reflexivity.
  - now rewrite (bind_raise _ _ _ _ _ (lift_raise e _)).
Qed.

Lemma on_copy_works (method : Raw -> result Raw) (σ : store) (data : nat) (raw : Raw) :
  σ !! data = Some (ORaw raw) ->
  Facts.works_on_copy σ raw method ((raw_copy data ≫= raw_method method) σ).
Proof.
  intros H. rewrite (on_copy_run method σ data raw H). split.
  - intros k o Hk. pose proof (fresh_ne σ k o Hk).
    destruct (method raw); cbn [snd]; now rewrite lookup_insert_ne.
  - destruct (method raw) as [raw' | e]; cbn [fst snd]; [| reflexivity ].
    exists (fresh (dom σ)). split; [ apply fresh_lookup | split; [ reflexivity |] ].
    apply lookup_insert_eq.
Qed.

(** ** [bandpass_filter] *)

Lemma auto_bandwidth_limit (freq limit : Q) :
  (limit <= 0)%Q -> Qle_bool (Filter.auto_bandwidth freq limit) 0 = true.
Proof.
  intros H. apply Qle_bool_iff. unfold Filter.auto_bandwidth.
  eapply Qle_trans; [ apply Q.le_min_r | exact H ].
Qed.

(** The toolkit refuses an upper edge at or above the Nyquist frequency. *)
Lemma triage_at_nyquist (sf l_freq h_freq : Q) :
  (sf / 2 <= h_freq)%Q -> is_ok (Filter.triage sf l_freq h_freq) = false.
Proof.
  intros H. unfold Filter.triage. cbv zeta.
  destruct (Qlt_le_dec (sf / 2) h_freq) as [| G]; [ reflexivity |].
  assert (E : (sf / 2 - h_freq <= 0)%Q) by lra.
  destruct (Qeq_bool l_freq 0).
  { now rewrite (auto_bandwidth_limit h_freq _ E). }
  destruct (Qlt_le_dec l_freq h_freq) as [| L].
  { destruct (Qle_bool (Filter.auto_bandwidth l_freq l_freq) 0); [ reflexivity |].
    now rewrite (auto_bandwidth_limit h_freq _ E). }
  destruct (Qle_bool (Filter.auto_bandwidth h_freq h_freq) 0); [ reflexivity |].
  rewrite auto_bandwidth_limit; [ reflexivity | lra ].
Qed.

(** The toolkit refuses a negative lower edge. *)
Lemma triage_negative (sf l_freq h_freq : Q) :
  (l_freq < 0)%Q -> is_ok (Filter.triage sf l_freq h_freq) = false.
Proof.
  intros H. unfold Filter.triage. cbv zeta.
  destruct (Qlt_le_dec (sf / 2) h_freq); [ reflexivity |].
  destruct (Qeq_bool l_freq 0) eqn:E.
  { apply Qeq_bool_iff in E. rewrite E in H. now apply Qlt_irrefl in H. }
  destruct (Qlt_le_dec l_freq h_freq) as [| L].
  - now rewrite auto_bandwidth_limit by (now apply Qlt_le_weak).
  - rewrite auto_bandwidth_limit; [ reflexivity |].
    apply Qlt_le_weak. eapply Qle_lt_trans; [ exact L | exact H ].
Qed.

(** The toolkit refuses two equal edges, unless they are zero. *)
Lemma triage_equal_edges (sf l_freq h_freq : Q) :
  (l_freq == h_freq)%Q -> ~ (l_freq == 0)%Q ->
  is_ok (Filter.triage sf l_freq h_freq) = false.
Proof.
  intros E NZ. unfold Filter.triage. cbv zeta.
  destruct (Qlt_le_dec (sf / 2) h_freq); [ reflexivity |].
  destruct (Qeq_bool l_freq 0) eqn:Z.
  { apply Qeq_bool_iff in Z. contradiction. }
  destruct (Qlt_le_dec l_freq h_freq) as [L |].
  { rewrite E in L. now apply Qlt_irrefl in L. }
  destruct (Qle_bool (Filter.auto_bandwidth h_freq h_freq) 0); [ reflexivity |].
  destruct (Qle_bool (Filter.auto_bandwidth l_freq (sf / 2 - l_freq)) 0) eqn:W;
    [ reflexivity |].
  assert (S : Qle_bool h_freq
                (l_freq - Filter.auto_bandwidth l_freq (sf / 2 - l_freq)) = false).
  { destruct (Qle_bool h_freq _) eqn:S; [| reflexivity ].
    apply Qle_bool_iff in S.
    assert (P : ~ (Filter.auto_bandwidth l_freq (sf / 2 - l_freq) <= 0)%Q).
    { intros P. apply Qle_bool_iff in P. congruence. }
    exfalso. apply P.
    remember (Filter.auto_bandwidth l_freq (sf / 2 - l_freq)) as w. lra. }
  rewrite S, andb_false_r. reflexivity.
Qed.

Lemma run_refused (kernel : band -> Q -> list frame -> list frame)
    (l_freq h_freq : Q) (raw : Raw) :
  is_ok (Filter.triage (sfreq raw) l_freq h_freq) = false ->
  is_ok (Filter.run kernel l_freq h_freq raw) = false.
Proof. unfold Filter.run. now destruct (Filter.triage _ _ _). Qed.

Lemma bandpass_filter_refused (toolkit_filter : Q -> Q -> Raw -> result Raw)
    (σ : store) (data : nat) (raw : Raw) (l_freq h_freq : Q) :
  σ !! data = Some (ORaw raw) ->
  is_ok (toolkit_filter l_freq h_freq raw) = false ->
  is_ok (bandpass_filter toolkit_filter data l_freq h_freq σ).1 = false.
Proof.
  intros H R.
  change (bandpass_filter toolkit_filter data l_freq h_freq σ)
    with ((raw_copy data ≫= raw_method (toolkit_filter l_freq h_freq)) σ).
  rewrite (on_copy_run (toolkit_filter l_freq h_freq) σ data raw H).
  now destruct (toolkit_filter l_freq h_freq raw).
Qed.

(** C5, as stated, fails, in both directions: at 100 Hz the pair
    (40, 10), with low above high, is not refused, the call returns a
    new container; and the pair (1, 50), with
    [0 <= low < high <= sfreq / 2], is refused. *)
Lemma bandpass_filter_accepts_reversed_band :
  Examples.session_store !! 1%nat = Some (ORaw Examples.four_samples)
  /\ sfreq Examples.four_samples = 100%Q
  /\ (10 <= 40)%Q
  /\ bandpass_filter (Filter.run Examples.passthrough) 1 40 10 Examples.session_store
     = (Ok 2%nat,
        <[2%nat := ORaw (mkRaw 100 (Examples.passthrough (BandStop 10 40) 100
                                       (frames Examples.four_samples)))]>
          Examples.session_store)
  /\ (0 <= 1)%Q /\ (1 < 50)%Q /\ (50 <= 100 / 2)%Q
  /\ is_ok (bandpass_filter (Filter.run Examples.passthrough) 1 1 50
              Examples.session_store).1 = false.
Proof.
  repeat split; try reflexivity; discriminate.
Qed.

(** C5, amended: [bandpass_filter] checks nothing itself.  It calls the
    filter of the toolkit on a copy with the two numbers as given:
    whatever that method does, no object of the store changes, the
    container given included; when the method accepts the pair the call
    returns a new container with the method's output, and when it
    refuses the call raises the method's exception.  The toolkit refuses
    an upper edge at or above [sfreq / 2], a negative lower edge, and
    two equal edges that are not zero; it does not refuse [low > high]
    as such, which asks for a band-stop. *)
Theorem bandpass_filter_forwards (toolkit_filter : Q -> Q -> Raw -> result Raw)
    (kernel : band -> Q -> list frame -> list frame)
    (σ : store) (data : nat) (raw : Raw) (l_freq h_freq : Q) :
  σ !! data = Some (ORaw raw) ->
  Facts.works_on_copy σ raw (toolkit_filter l_freq h_freq)
    (bandpass_filter toolkit_filter data l_freq h_freq σ)
  /\ ((sfreq raw / 2 <= h_freq)%Q \/ (l_freq < 0)%Q
      \/ ((l_freq == h_freq)%Q /\ ~ (l_freq == 0)%Q) ->
      is_ok (bandpass_filter (Filter.run kernel) data l_freq h_freq σ).1 = false).
Proof.
  intros H. split.
  - apply (on_copy_works _ σ data raw H).
  - intros C. apply (bandpass_filter_refused _ σ data raw _ _ H), run_refused.
    destruct C as [C | [C | [C1 C2]]].
    + now apply triage_at_nyquist.
    + now apply triage_negative.
    + now apply triage_equal_edges.
Qed.

Lemma bandpass_filter_forwards_witness :
  Examples.session_store !! 1%nat = Some (ORaw Examples.four_samples)
  /\ Facts.works_on_copy Examples.session_store Examples.four_samples
       (Filter.run Examples.passthrough 40 10)
       (bandpass_filter (Filter.run Examples.passthrough) 1 40 10
          Examples.session_store)
  /\ is_ok (bandpass_filter (Filter.run Examples.passthrough) 1 1 50
              Examples.session_store).1 = false.
Proof.
  assert (H : Examples.session_store !! 1%nat = Some (ORaw Examples.four_samples))
    by reflexivity.
  split; [ exact H | split ].
  - exact (proj1 (bandpass_filter_forwards (Filter.run Examples.passthrough)
                    Examples.passthrough Examples.session_store 1
                    Examples.four_samples 40 10 H)).
  - apply (proj2 (bandpass_filter_forwards (Filter.run Examples.passthrough)
                    Examples.passthrough Examples.session_store 1
                    Examples.four_samples 1 50 H)).
    left. discriminate.
Defined.

(** * Further properties *)

(** ** The operations that work on a copy: further properties *)

(** X1: [notch_filter], [re_reference] and [signal_detrend] never change an
    object that is in the store, the recording given to them included,
    whatever the toolkit method does: on success they return a new
    recording holding the output of the method, and when the method
    raises they raise the same exception. *)
Theorem forwarding_operations_work_on_copy
    (toolkit_notch_filter : list Q -> Raw -> result Raw)
    (toolkit_set_eeg_reference : reference -> Raw -> result Raw)
    (toolkit_detrend : Raw -> result Raw)
    (σ : store) (data : nat) (raw : Raw) (freqs : list Q) (ref_channels : reference) :
  σ !! data = Some (ORaw raw) ->
  Facts.works_on_copy σ raw (toolkit_notch_filter freqs)
    (notch_filter toolkit_notch_filter data freqs σ)
  /\ Facts.works_on_copy σ raw (toolkit_set_eeg_reference ref_channels)
       (re_reference toolkit_set_eeg_reference data ref_channels σ)
  /\ Facts.works_on_copy σ raw toolkit_detrend
       (signal_detrend toolkit_detrend data σ).
Proof.
  intros H. repeat split; try (now apply on_copy_works);
    apply (on_copy_works _ σ data raw H).
Qed.

Lemma forwarding_operations_work_on_copy_witness :
  Examples.session_store !! 1%nat = Some (ORaw Examples.four_samples)
  /\ Facts.works_on_copy Examples.session_store Examples.four_samples Facts.refuse
       (notch_filter (fun _ => Facts.refuse) 1 [50%Q] Examples.session_store)
  /\ Facts.works_on_copy Examples.session_store Examples.four_samples Facts.keep_first
       (signal_detrend Facts.keep_first 1 Examples.session_store).
Proof.
  assert (H : Examples.session_store !! 1%nat = Some (ORaw Examples.four_samples))
    by reflexivity.
  pose proof (forwarding_operations_work_on_copy (fun _ => Facts.refuse)
                (fun _ => Facts.refuse) Facts.keep_first
                Examples.session_store 1 Examples.four_samples [50%Q] Average H)
    as (W1 & _ & W3).
  split; [ exact H | split; [ exact W1 | exact W3 ] ].
Defined.

(** X2: Two operations in a row, [notch_filter] and then [re_reference] on
    its result: when both toolkit methods succeed, the store holds three
    different recordings afterwards, the one given, the notch-filtered
    one and the re-referenced one, each with its own content. *)
Theorem notch_then_reference_keeps_every_stage
    (toolkit_notch_filter : list Q -> Raw -> result Raw)
    (toolkit_set_eeg_reference : reference -> Raw -> result Raw)
    (σ : store) (data : nat) (raw raw1 raw2 : Raw)
    (freqs : list Q) (ref_channels : reference) :
  σ !! data = Some (ORaw raw) ->
  toolkit_notch_filter freqs raw = Ok raw1 ->
  toolkit_set_eeg_reference ref_channels raw1 = Ok raw2 ->
  exists (c1 c2 : nat) (σ' : store),
    (notch_filter toolkit_notch_filter data freqs
       ≫= fun filtered => re_reference toolkit_set_eeg_reference filtered ref_channels) σ
    = (Ok c2, σ')
    /\ σ' !! data = Some (ORaw raw)
    /\ σ' !! c1 = Some (ORaw raw1)
    /\ σ' !! c2 = Some (ORaw raw2)
    /\ data ≠ c1 /\ data ≠ c2 /\ c1 ≠ c2.
Proof.
  intros H E1 E2.
  pose proof (on_copy_run (toolkit_notch_filter freqs) σ data raw H) as R1.
  rewrite E1 in R1.
  remember (fresh (dom σ)) as c1 eqn:Ec1.
  assert (H1 : <[c1 := ORaw raw1]> σ !! c1 = Some (ORaw raw1)) by apply lookup_insert_eq.
  pose proof (on_copy_run (toolkit_set_eeg_reference ref_channels) _ c1 raw1 H1) as R2.
  rewrite E2 in R2.
  remember (fresh (dom (<[c1 := ORaw raw1]> σ))) as c2 eqn:Ec2.
  assert (N1 : c1 ≠ data) by (rewrite Ec1; eapply fresh_ne; exact H).
  assert (N2 : c2 ≠ c1) by (rewrite Ec2; eapply fresh_ne; exact H1).
  assert (N3 : c2 ≠ data).
  { rewrite Ec2. eapply fresh_ne. rewrite lookup_insert_ne by exact N1. exact H. }
  exists c1, c2. eexists. split.
  - unfold notch_filter at 1. rewrite (bind_ok _ _ _ _ _ R1).
    unfold re_reference. exact R2.
  - rewrite lookup_insert_eq, !lookup_insert_ne by congruence.
    rewrite lookup_insert_eq. repeat split; congruence.
Qed.

Lemma notch_then_reference_keeps_every_stage_witness :
  Examples.session_store !! 1%nat = Some (ORaw Examples.four_samples)
  /\ exists (c1 c2 : nat) (σ' : store),
       (notch_filter (fun _ => Facts.keep_first) 1 [50%Q]
          ≫= fun filtered => re_reference (fun _ => Facts.keep_first) filtered Average)
         Examples.session_store
       = (Ok c2, σ')
       /\ σ' !! 1%nat = Some (ORaw Examples.four_samples)
       /\ σ' !! c1 = Some (ORaw (mkRaw 100 [[1%Q]]))
       /\ σ' !! c2 = Some (ORaw (mkRaw 100 [[1%Q]]))
       /\ 1%nat ≠ c1 /\ 1%nat ≠ c2 /\ c1 ≠ c2.
Proof.
  assert (H : Examples.session_store !! 1%nat = Some (ORaw Examples.four_samples))
    by reflexivity.
  split; [ exact H |].
  exact (notch_then_reference_keeps_every_stage (fun _ => Facts.keep_first)
           (fun _ => Facts.keep_first) Examples.session_store 1
           Examples.four_samples (mkRaw 100 [[1%Q]]) (mkRaw 100 [[1%Q]])
           [50%Q] Average H eq_refl eq_refl).
Defined.

(** ** [realign_final_session]: further properties *)

(** X3: On an empty list of sessions [realign_final_session] raises the
    [IndexError] of [mne_raw_sessions[-1]] and changes nothing. *)
Theorem realign_empty_list (σ : store) (l : nat) :
  σ !! l = Some (OList []) ->
  realign_final_session l σ = (Raise (IndexError "list index out of range"), σ).
Proof.
  intros H. unfold realign_final_session.
  rewrite (bind_ok _ _ _ _ _ (load_list_eq _ _ _ H)). cbn [last].
  now rewrite (bind_raise _ _ _ _ _ (lift_raise _ σ)).
Qed.

Lemma realign_empty_list_witness :
  (<[0%nat := OList []]> ∅ : store) !! 0%nat = Some (OList [])
  /\ realign_final_session 0 (<[0%nat := OList []]> ∅)
     = (Raise (IndexError "list index out of range"), <[0%nat := OList []]> ∅).
Proof.
  assert (H : (<[0%nat := OList []]> ∅ : store) !! 0%nat = Some (OList []))
    by reflexivity.
  split; [ exact H | exact (realign_empty_list _ 0%nat H) ].
Defined.

(** X4: For a list that ends with a recording of [N >= 1] samples, the two
    sessions that [realign_final_session] puts at the end of the list
    keep the sampling rate and have [N // 2 + 1] and [N - N // 2]
    samples; the last sample of the first is the first sample of the
    second (the midpoint sample, for [N = 1] the only one), and the first
    without that sample, followed by the second, is the recording. *)
Theorem realign_halves_share_midpoint (σ : store) (l r : nat) (pre : list nat)
    (raw : Raw) :
  σ !! l = Some (OList (pre ++ [r])) ->
  σ !! r = Some (ORaw raw) ->
  (0 < sfreq raw)%Q -> 1 <= n_times raw ->
  exists (a b : nat) (σ' : store) (first second : Raw),
    realign_final_session l σ = (Ok l, σ')
    /\ σ' !! l = Some (OList (pre ++ [a; b]))
    /\ σ' !! a = Some (ORaw first) /\ σ' !! b = Some (ORaw second)
    /\ sfreq first = sfreq raw /\ sfreq second = sfreq raw
    /\ n_times first = n_times raw `div` 2 + 1
    /\ n_times second = n_times raw - n_times raw `div` 2
    /\ is_Some (last (frames first))
    /\ last (frames first) = head (frames second)
    /\ take (Z.to_nat (n_times raw `div` 2)) (frames first) ++ frames second
       = frames raw.
Proof.
  intros Hl Hr P N.
  pose proof (realign_final_session_run σ l r pre raw Hl Hr P N) as R. cbv zeta in R.
  remember (Z.to_nat (n_times raw `div` 2)) as mid eqn:Em.
  remember (mkRaw (sfreq raw) (take (S mid) (frames raw))) as first eqn:E1.
  remember (mkRaw (sfreq raw) (drop mid (frames raw))) as second eqn:E2.
  remember (fresh (dom σ)) as a eqn:Ea.
  remember (fresh (dom (<[a := ORaw first]> σ))) as b eqn:Eb.
  assert (Hal : a ≠ l) by (rewrite Ea; eapply fresh_ne; exact Hl).
  assert (Hbl : b ≠ l).
  { rewrite Eb. eapply fresh_ne. rewrite lookup_insert_ne by exact Hal. exact Hl. }
  assert (Hba : b ≠ a).
  { rewrite Eb. eapply fresh_ne. apply lookup_insert_eq. }
  assert (M : (mid < length (frames raw))%nat).
  { unfold n_times in *. rewrite Em.
    assert (Z.of_nat (length (frames raw)) `div` 2 < Z.of_nat (length (frames raw)))
      by (apply Z.div_lt; lia).
    pose proof (Z.div_pos (Z.of_nat (length (frames raw))) 2 ltac:(lia) ltac:(lia)).
    lia. }
  assert (Mz : Z.of_nat mid = n_times raw `div` 2).
  { rewrite Em. apply Z2Nat.id. apply Z.div_pos; lia. }
  exists a, b. eexists. exists first, second.
  split; [ exact R |].
  rewrite lookup_insert_eq.
  rewrite (lookup_insert_ne _ l a) by congruence.
  rewrite (lookup_insert_ne _ b a) by congruence.
  rewrite lookup_insert_eq.
  rewrite (lookup_insert_ne _ l b) by congruence.
  rewrite lookup_insert_eq.
  rewrite E1, E2. cbn [sfreq frames]. unfold n_times in *. cbn [frames].
  rewrite length_take, length_drop.
  assert (L : last (take (S mid) (frames raw)) = frames raw !! mid).
  { rewrite last_lookup, length_take.
    replace (Nat.pred (S mid `min` length (frames raw))) with mid by lia.
    apply lookup_take_lt. lia. }
  repeat split; try lia.
  - rewrite L. apply lookup_lt_is_Some. exact M.
  - rewrite L, head_lookup, lookup_drop. f_equal. lia.
  - rewrite take_take. replace (mid `min` S mid)%nat with mid by lia.
    apply take_drop.
Qed.

Lemma realign_halves_share_midpoint_witness :
  Examples.session_store !! 0%nat = Some (OList ([] ++ [1%nat]))
  /\ Examples.session_store !! 1%nat = Some (ORaw Examples.four_samples)
  /\ (0 < sfreq Examples.four_samples)%Q
  /\ 1 <= n_times Examples.four_samples
  /\ exists (a b : nat) (σ' : store) (first second : Raw),
       realign_final_session 0 Examples.session_store = (Ok 0%nat, σ')
       /\ σ' !! 0%nat = Some (OList ([] ++ [a; b]))
       /\ σ' !! a = Some (ORaw first) /\ σ' !! b = Some (ORaw second)
       /\ sfreq first = sfreq Examples.four_samples
       /\ sfreq second = sfreq Examples.four_samples
       /\ n_times first = n_times Examples.four_samples `div` 2 + 1
       /\ n_times second
          = n_times Examples.four_samples - n_times Examples.four_samples `div` 2
       /\ is_Some (last (frames first))
       /\ last (frames first) = head (frames second)
       /\ take (Z.to_nat (n_times Examples.four_samples `div` 2)) (frames first)
            ++ frames second
          = frames Examples.four_samples.
Proof.
  assert (Hl : Examples.session_store !! 0%nat = Some (OList ([] ++ [1%nat])))
    by reflexivity.
  assert (Hr : Examples.session_store !! 1%nat = Some (ORaw Examples.four_samples))
    by reflexivity.
  assert (P : (0 < sfreq Examples.four_samples)%Q) by reflexivity.
  assert (N : 1 <= n_times Examples.four_samples) by (vm_compute; discriminate).
  split; [ exact Hl | split; [ exact Hr | split; [ exact P | split; [ exact N |] ] ] ].
  exact (realign_halves_share_midpoint Examples.session_store 0 1 []
           Examples.four_samples Hl Hr P N).
Defined.

(** ** [interpolate_nans]: further properties *)

Lemma fill_gaps_valid (row : list float) (k : nat) (prev : option (Z * float))
    (i : nat) (x : float) :
  row !! i = Some x -> isnan1 x = false -> fill_gaps prev k row !! i = Some x.
Proof.
  revert k prev i. induction row as [| y row IH]; intros k prev i H N;
    [ discriminate |].
  cbn [fill_gaps]. destruct i as [| i].
  - injection H as ->. now rewrite N.
  - destruct (isnan1 y); rewrite lookup_cons; now apply IH.
Qed.

Lemma fill_gaps_complete (row : list float) (k : nat) (prev : option (Z * float)) :
  Forall (fun x => isnan1 x = false) row -> fill_gaps prev k row = row.
Proof.
  revert k prev. induction row as [| x row IH]; intros k prev H;
    cbn [fill_gaps]; [ reflexivity |].
  apply Forall_cons_1 in H as [Hx H]. now rewrite Hx, IH.
Qed.

Lemma complete_has_valid (row : list float) : Facts.complete row -> has_valid row.
Proof.
  intros [NE H]. destruct row as [| x row]; [ congruence |].
  apply Forall_cons_1 in H as [H _]. now apply Exists_cons_hd.
Qed.

Lemma map_linear_fill_complete (rows : list (list float)) :
  Forall Facts.complete rows -> map linear_fill rows = rows.
Proof.
  induction 1 as [| row rows [_ H] _ IH]; [ reflexivity |].
  cbn [map]. rewrite IH. f_equal. now apply fill_gaps_complete.
Qed.

(** X5: On a matrix whose rows all have a valid sample, every valid sample
    is still in its place after [interpolate_nans]: only missing
    entries are written. *)
Theorem interpolate_nans_keeps_valid_samples (σ : store) (data : nat)
    (rows : list (list float)) (c i : nat) (row : list float) (v : Q) :
  σ !! data = Some (OArray rows) ->
  Forall has_valid rows ->
  rows !! c = Some row ->
  row !! i = Some (num v) ->
  exists (out : list (list float)) (row' : list float),
    (interpolate_nans data σ).2 !! data = Some (OArray out)
    /\ out !! c = Some row'
    /\ row' !! i = Some (num v).
Proof.
  intros H V Hc Hi.
  rewrite (interpolate_nans_run data rows σ H), (rows_after_valid rows V).
  cbn [fst snd]. rewrite lookup_insert_eq.
  exists (map linear_fill rows), (linear_fill row). split; [ reflexivity | split ].
  - change (map linear_fill rows) with (linear_fill <$> rows).
    now rewrite list_lookup_fmap, Hc.
  - now apply fill_gaps_valid.
Qed.

Lemma interpolate_nans_keeps_valid_samples_witness :
  Examples.gap_store !! 0%nat = Some (OArray [Examples.gap_row])
  /\ Forall has_valid [Examples.gap_row]
  /\ exists (out : list (list float)) (row' : list float),
       (interpolate_nans 0 Examples.gap_store).2 !! 0%nat = Some (OArray out)
       /\ out !! 0%nat = Some row'
       /\ row' !! 2%nat = Some (num 3).
Proof.
  assert (H : Examples.gap_store !! 0%nat = Some (OArray [Examples.gap_row]))
    by reflexivity.
  assert (V : Forall has_valid [Examples.gap_row]).
  { constructor; [ apply Exists_cons_hd; reflexivity | constructor ]. }
  split; [ exact H | split; [ exact V |] ].
  exact (interpolate_nans_keeps_valid_samples Examples.gap_store 0
           [Examples.gap_row] 0 2 Examples.gap_row 3 H V eq_refl eq_refl).
Defined.

(** X6: A matrix without missing entries, with rows that are not empty, is
    left as it is: [interpolate_nans] returns it and the store is the
    same. *)
Theorem interpolate_nans_complete_matrix (σ : store) (data : nat)
    (rows : list (list float)) :
  σ !! data = Some (OArray rows) ->
  Forall Facts.complete rows ->
  interpolate_nans data σ = (Ok data, σ).
Proof.
  intros H C.
  assert (V : Forall has_valid rows).
  { eapply Forall_impl; [ exact C | apply complete_has_valid ]. }
  rewrite (interpolate_nans_run data rows σ H), (rows_after_valid rows V).
  cbn [fst snd]. rewrite (map_linear_fill_complete rows C).
  now rewrite insert_id.
Qed.

Lemma interpolate_nans_complete_matrix_witness :
  (<[0%nat := OArray [Examples.gap_filled]]> ∅ : store) !! 0%nat
    = Some (OArray [Examples.gap_filled])
  /\ Forall Facts.complete [Examples.gap_filled]
  /\ interpolate_nans 0 (<[0%nat := OArray [Examples.gap_filled]]> ∅)
     = (Ok 0%nat, <[0%nat := OArray [Examples.gap_filled]]> ∅).
Proof.
  assert (H : (<[0%nat := OArray [Examples.gap_filled]]> ∅ : store) !! 0%nat
              = Some (OArray [Examples.gap_filled])) by reflexivity.
  assert (C : Forall Facts.complete [Examples.gap_filled]).
  { constructor; [| constructor ]. split; [ discriminate | repeat constructor ]. }
  split; [ exact H | split; [ exact C |] ].
  exact (interpolate_nans_complete_matrix _ 0 [Examples.gap_filled] H C).
Defined.

Lemma next_valid_fill_gaps (row : list float) (k : nat) (prev : option (Z * float)) :
  (forall a va, prev = Some (a, va) -> a < Z.of_nat k /\ isnan1 va = false) ->
  Facts.stays_missing prev (next_valid k row) = true ->
  next_valid k (fill_gaps prev k row) = next_valid k row.
Proof.
  revert k. induction row as [| x row IH]; intros k P M; [ reflexivity |].
  cbn [fill_gaps next_valid] in *. destruct (isnan1 x) eqn:Nx; cbn [next_valid].
  - rewrite fill_value_isnan, M.
    + apply IH; [| exact M ]. intros a va E. destruct (P a va E). split; [ lia | assumption ].
    + exact P.
    + intros b vb E. destruct (next_valid_spec _ _ _ _ E) as (? & ? & _).
      split; [ lia | assumption ].
  - now rewrite Nx.
Qed.

Lemma fill_gaps_starts_valid (row : list float) (k : nat) (prev : option (Z * float)) :
  (forall a va, prev = Some (a, va) -> a < Z.of_nat k /\ isnan1 va = false) ->
  Facts.stays_missing prev (next_valid k row) = false ->
  Facts.starts_valid (fill_gaps prev k row).
Proof.
  intros P M. destruct row as [| x row]; [ exact I |].
  cbn [fill_gaps next_valid] in *. unfold Facts.starts_valid.
  destruct (isnan1 x) eqn:Nx; cbn [head]; [| exact Nx ].
  rewrite fill_value_isnan; [ exact M | exact P |].
  intros b vb E. destruct (next_valid_spec _ _ _ _ E) as (? & ? & _).
  split; [ lia | assumption ].
Qed.

(** Filling the gaps of a filled row changes nothing, also when the row
    is filled from another valid entry on the left, provided no missing
    entry comes first. *)
Lemma fill_gaps_idempotent (row : list float) (k : nat)
    (prev prev' : option (Z * float)) :
  (forall a va, prev = Some (a, va) -> a < Z.of_nat k /\ isnan1 va = false) ->
  prev' = prev \/ Facts.starts_valid (fill_gaps prev k row) ->
  fill_gaps prev' k (fill_gaps prev k row) = fill_gaps prev k row.
Proof.
  revert k prev prev'. induction row as [| x row IH]; intros k prev prev' P C;
    [ reflexivity |].
  cbn [fill_gaps] in *. destruct (isnan1 x) eqn:Nx.
  - assert (N : forall b vb, next_valid (S k) row = Some (b, vb) ->
                  Z.of_nat k < b /\ isnan1 vb = false).
    { intros b vb E. destruct (next_valid_spec _ _ _ _ E) as (? & ? & _).
      split; [ lia | assumption ]. }
    assert (P' : forall a va, prev = Some (a, va) ->
                   a < Z.of_nat (S k) /\ isnan1 va = false).
    { intros a va E. destruct (P a va E). split; [ lia | assumption ]. }
    pose proof (fill_value_isnan prev (next_valid (S k) row) (Z.of_nat k) P N) as F.
    cbn [fill_gaps].
    destruct (isnan1 (fill_value prev (next_valid (S k) row) (Z.of_nat k))) eqn:Nh.
    + destruct C as [-> | C]; [| unfold Facts.starts_valid in C; cbn [head] in C;
                                  congruence ].
      rewrite (next_valid_fill_gaps row (S k) prev P') by congruence.
      f_equal. apply IH; [ exact P' | now left ].
    + f_equal. apply IH; [ exact P' | right ].
      apply fill_gaps_starts_valid; [ exact P' | congruence ].
  - cbn [fill_gaps]. rewrite Nx. f_equal. apply IH; [| now left ].
    intros a va [= <- <-]. split; [ lia | exact Nx ].
Qed.

Lemma linear_fill_idempotent (row : list float) :
  linear_fill (linear_fill row) = linear_fill row.
Proof.
  unfold linear_fill. apply fill_gaps_idempotent; [ discriminate | now left ].
Qed.

Lemma linear_fill_has_valid (row : list float) :
  has_valid row -> has_valid (linear_fill row).
Proof.
  unfold has_valid. intros H. apply Exists_exists in H as (x & Hx & N).
  apply list_elem_of_lookup in Hx as [i Hi].
  apply Exists_exists. exists x. split; [| exact N ].
  apply list_elem_of_lookup. exists i. now apply fill_gaps_valid.
Qed.

(** X7: [interpolate_nans] is idempotent: on a matrix whose rows all have a
    valid sample, a second call on the result changes nothing. *)
Theorem interpolate_nans_idempotent (σ : store) (data : nat)
    (rows : list (list float)) :
  σ !! data = Some (OArray rows) ->
  Forall has_valid rows ->
  (interpolate_nans data ≫= interpolate_nans) σ = interpolate_nans data σ.
Proof.
  intros H V.
  assert (R : interpolate_nans data σ
              = (Ok data, <[data := OArray (map linear_fill rows)]> σ)).
  { now rewrite (interpolate_nans_run data rows σ H), (rows_after_valid rows V). }
  rewrite (bind_ok _ _ _ _ _ R), R.
  assert (V' : Forall has_valid (map linear_fill rows)).
  { clear H R. induction V as [| row rows Hr _ IH]; cbn [map]; constructor;
      [ now apply linear_fill_has_valid | exact IH ]. }
  rewrite (interpolate_nans_run data (map linear_fill rows) _ (lookup_insert_eq _ _ _)).
  rewrite (rows_after_valid _ V'). cbn [fst snd].
  rewrite insert_insert_eq. do 3 f_equal.
  clear. induction rows as [| row rows IH]; [ reflexivity |].
  cbn [map]. now rewrite linear_fill_idempotent, IH.
Qed.

Lemma interpolate_nans_idempotent_witness :
  Examples.gap_store !! 0%nat = Some (OArray [Examples.gap_row])
  /\ Forall has_valid [Examples.gap_row]
  /\ (interpolate_nans 0 ≫= interpolate_nans) Examples.gap_store
     = interpolate_nans 0 Examples.gap_store.
Proof.
  assert (H : Examples.gap_store !! 0%nat = Some (OArray [Examples.gap_row]))
    by reflexivity.
  assert (V : Forall has_valid [Examples.gap_row]).
  { constructor; [ apply Exists_cons_hd; reflexivity | constructor ]. }
  split; [ exact H | split; [ exact V |] ].
  exact (interpolate_nans_idempotent Examples.gap_store 0 [Examples.gap_row] H V).
Defined.

Lemma rows_after_stops (good rest : list (list float)) (bad : list float) :
  Forall has_valid good ->
  ~ has_valid bad ->
  rows_after interpolate_channel (good ++ bad :: rest)
  = (map linear_fill good ++ bad :: rest, Some empty_sample_points).
Proof.
  intros V B. induction V as [| row good H _ IH]; cbn [app map rows_after].
  - now rewrite (interpolate_channel_no_valid bad B).
  - now rewrite (interpolate_channel_valid row H), IH.
Qed.

(** X8: A failure leaves the matrix partly overwritten: when the first row
    without a valid sample comes after rows that have one, the call
    raises, and the matrix object then holds the rows before it
    interpolated and that row and the rows after it as they were. *)
Theorem interpolate_nans_failure_is_partial (σ : store) (data : nat)
    (good rest : list (list float)) (bad : list float) :
  σ !! data = Some (OArray (good ++ bad :: rest)) ->
  Forall has_valid good ->
  Forall (fun x => isnan1 x = true) bad ->
  interpolate_nans data σ
  = (Raise empty_sample_points,
     <[data := OArray (map linear_fill good ++ bad :: rest)]> σ).
Proof.
  intros H V B.
  assert (NB : ~ has_valid bad).
  { intros E. unfold has_valid in E. apply Exists_exists in E as (x & Hx & Nx).
    rewrite Forall_forall in B. specialize (B x Hx). congruence. }
  now rewrite (interpolate_nans_run data _ σ H), (rows_after_stops good rest bad V NB).
Qed.

Lemma interpolate_nans_failure_is_partial_witness :
  Examples.blank_store !! 0%nat = Some (OArray ([Examples.gap_row] ++ [nan; nan] :: []))
  /\ Forall has_valid [Examples.gap_row]
  /\ Forall (fun x => isnan1 x = true) [nan; nan]
  /\ interpolate_nans 0 Examples.blank_store
     = (Raise empty_sample_points,
        <[0%nat := OArray (map linear_fill [Examples.gap_row] ++ [nan; nan] :: [])]>
          Examples.blank_store).
Proof.
  assert (H : Examples.blank_store !! 0%nat
              = Some (OArray ([Examples.gap_row] ++ [nan; nan] :: []))) by reflexivity.
  assert (V : Forall has_valid [Examples.gap_row]).
  { constructor; [ apply Exists_cons_hd; reflexivity | constructor ]. }
  assert (B : Forall (fun x => isnan1 x = true) [nan; nan]) by (repeat constructor).
  split; [ exact H | split; [ exact V | split; [ exact B |] ] ].
  exact (interpolate_nans_failure_is_partial Examples.blank_store 0
           [Examples.gap_row] [] [nan; nan] H V B).
Defined.

(** ** [interpolate_nans]: the ends of a row *)

Lemma fill_gaps_after_prefix (pre rest : list float) (va : Q) (k : nat)
    (prev : option (Z * float)) :
  drop (length pre) (fill_gaps prev k (pre ++ num va :: rest))
  = num va :: fill_gaps (Some (Z.of_nat (k + length pre), num va))
                (S (k + length pre)) rest.
Proof.
  revert k prev. induction pre as [| w pre IH]; intros k prev;
    cbn [app length fill_gaps drop isnan1].
  - now rewrite Nat.add_0_r.
  - destruct (isnan1 w); cbn [drop]; rewrite IH; now rewrite <- !Nat.add_succ_comm.
Qed.

Lemma next_valid_gap (n k : nat) (vb : Q) (post : list float) :
  next_valid k (replicate n nan ++ num vb :: post) = Some (Z.of_nat (k + n), num vb).
Proof.
  revert k. induction n as [| n IH]; intros k; cbn [replicate app next_valid isnan1].
  - now rewrite Nat.add_0_r.
  - rewrite IH. now rewrite <- Nat.add_succ_comm.
Qed.

Lemma interpolate_nans_row (σ : store) (data : nat) (rows : list (list float))
    (c : nat) (row : list float) :
  σ !! data = Some (OArray rows) ->
  Forall has_valid rows ->
  rows !! c = Some row ->
  exists out : list (list float),
    interpolate_nans data σ = (Ok data, <[data := OArray out]> σ)
    /\ out !! c = Some (linear_fill row).
Proof.
  intros H V Hc. exists (map linear_fill rows). split.
  - now rewrite (interpolate_nans_run data rows σ H), (rows_after_valid rows V).
  - change (map linear_fill rows) with (linear_fill <$> rows).
    now rewrite list_lookup_fmap, Hc.
Qed.

Lemma fill_gaps_leading (n k j : nat) (vb : Q) (post : list float) :
  (j < n)%nat ->
  fill_gaps None k (replicate n nan ++ num vb :: post) !! j = Some (num vb).
Proof.
  revert k j. induction n as [| n IH]; intros k j Hj; [ lia |].
  cbn [replicate app fill_gaps isnan1]. rewrite lookup_cons. destruct j as [| j].
  - now rewrite next_valid_gap.
  - apply IH. lia.
Qed.

Lemma next_valid_blank (n k : nat) : next_valid k (replicate n nan) = None.
Proof.
  revert k. induction n as [| n IH]; intros k; cbn [replicate next_valid isnan1];
    [ reflexivity | apply IH ].
Qed.

Lemma fill_gaps_trailing (n k j : nat) (a : Z) (va : Q) :
  (j < n)%nat ->
  fill_gaps (Some (a, num va)) k (replicate n nan) !! j = Some (num va).
Proof.
  revert k j. induction n as [| n IH]; intros k j Hj; [ lia |].
  cbn [replicate fill_gaps isnan1]. rewrite lookup_cons. destruct j as [| j].
  - now rewrite next_valid_blank.
  - apply IH. lia.
Qed.

(** X11: No extrapolation at the ends of a row: the missing samples before
    the first valid sample all become that sample, and the missing
    samples after the last valid sample all become that one. *)
Theorem interpolate_nans_holds_at_the_ends (σ : store) (data : nat)
    (rows : list (list float)) (c : nat) (row : list float) :
  σ !! data = Some (OArray rows) ->
  Forall has_valid rows ->
  rows !! c = Some row ->
  exists (out : list (list float)) (row' : list float),
    interpolate_nans data σ = (Ok data, <[data := OArray out]> σ)
    /\ out !! c = Some row'
    /\ (forall (n j : nat) (v : Q) (post : list float),
          row = replicate n nan ++ num v :: post -> (j < n)%nat ->
          row' !! j = Some (num v))
    /\ (forall (n j : nat) (v : Q) (pre : list float),
          row = pre ++ num v :: replicate n nan -> (j < n)%nat ->
          row' !! (length pre + 1 + j)%nat = Some (num v)).
Proof.
  intros H V Hc.
  destruct (interpolate_nans_row σ data rows c _ H V Hc) as (out & R & Ho).
  exists out, (linear_fill row). split; [ exact R | split; [ exact Ho | split ] ].
  - intros n j v post -> Hj. now apply fill_gaps_leading.
  - intros n j v pre -> Hj. unfold linear_fill.
    pose proof (fill_gaps_after_prefix pre (replicate n nan) v 0 None) as D.
    apply (f_equal (fun l => l !! (1 + j)%nat)) in D.
    rewrite lookup_drop, lookup_cons in D. cbn [Nat.add] in D.
    rewrite (fill_gaps_trailing n _ j _ v Hj) in D.
    replace (length pre + 1 + j)%nat with (length pre + S j)%nat by lia.
    exact D.
Qed.

Lemma interpolate_nans_holds_at_the_ends_witness :
  (<[0%nat := OArray [[nan; num 2; nan; nan]]]> ∅ : store) !! 0%nat
    = Some (OArray [[nan; num 2; nan; nan]])
  /\ Forall has_valid [[nan; num 2; nan; nan]]
  /\ exists (out : list (list float)) (row' : list float),
       interpolate_nans 0 (<[0%nat := OArray [[nan; num 2; nan; nan]]]> ∅)
         = (Ok 0%nat,
            <[0%nat := OArray out]> (<[0%nat := OArray [[nan; num 2; nan; nan]]]> ∅))
       /\ out !! 0%nat = Some row'
       /\ row' !! 0%nat = Some (num 2)
       /\ row' !! 3%nat = Some (num 2).
Proof.
  assert (H : (<[0%nat := OArray [[nan; num 2; nan; nan]]]> ∅ : store) !! 0%nat
              = Some (OArray [[nan; num 2; nan; nan]])) by reflexivity.
  assert (V : Forall has_valid [[nan; num 2; nan; nan]]).
  { constructor; [ apply Exists_cons_tl, Exists_cons_hd; reflexivity | constructor ]. }
  split; [ exact H | split; [ exact V |] ].
  destruct (interpolate_nans_holds_at_the_ends _ 0 [[nan; num 2; nan; nan]] 0
              [nan; num 2; nan; nan] H V eq_refl) as (out & row' & R & Ho & L & T).
  exists out, row'. split; [ exact R | split; [ exact Ho | split ] ].
  - exact (L 1%nat 0%nat 2%Q [nan; nan] eq_refl ltac:(lia)).
  - exact (T 2%nat 1%nat 2%Q [nan] eq_refl ltac:(lia)).
Defined.

(** ** [create_epochs]: further properties *)

Lemma round_nonneg (x : Q) : (0 <= x)%Q -> 0 <= Py.round x.
Proof.
  intros H. unfold Py.round.
  assert (F : 0 <= Qfloor x).
  { change 0 with (Qfloor 0). now apply Qfloor_resp_le. }
  destruct (Qcompare _ _); [ destruct (Z.even _) | |]; lia.
Qed.

Lemma rnd_nonneg (x : Q) : (0 <= x)%Q -> (0 <= Float64.rnd x)%Q.
Proof.
  intros H. unfold Float64.rnd.
  destruct (Qeq_bool (Qred x) 0); [ apply Qle_refl |].
  remember (Z.max (Float64.exponent (Qred x) - 52) (-1074)) as s.
  assert (P : (0 < Float64.pow2 s)%Q) by (apply Qpower_0_lt; reflexivity).
  rewrite Qred_correct.
  apply Qmult_le_0_compat; [| now apply Qlt_le_weak ].
  change 0%Q with (inject_Z 0). rewrite <- Zle_Qle. apply round_nonneg.
  apply Qle_shift_div_l; [ exact P |]. now rewrite Qmult_0_l, Qred_correct.
Qed.

Lemma window_length_pos (sf tmax : Q) :
  (0 < sf)%Q -> (0 <= tmax)%Q -> 1 <= Toolkit.window_length sf 0 tmax.
Proof.
  intros P T. unfold Toolkit.window_length. rewrite window_start_0.
  assert (0 <= Py.round (Float64.rnd (Float64.rnd sf * Float64.rnd tmax))); [| lia ].
  apply round_nonneg, rnd_nonneg.
  apply Qmult_le_0_compat; apply rnd_nonneg; [ now apply Qlt_le_weak | exact T ].
Qed.

Lemma fits_bounds (data : Raw) (a len : Z) :
  Toolkit.fits data a len = true <-> 0 <= a /\ a + len <= n_times data.
Proof.
  unfold Toolkit.fits. rewrite andb_true_iff, !Z.leb_le. reflexivity.
Qed.

Lemma slice_length {A} (l : list A) (a len : Z) :
  0 <= a -> 0 <= len -> a + len <= Z.of_nat (length l) ->
  Z.of_nat (length (Py.slice a (a + len) l)) = len.
Proof.
  intros Ha Hl Hn. unfold Py.slice. rewrite length_take, length_drop. lia.
Qed.

(** X13: All windows that [create_epochs] returns have the same length, of
    at least one sample: [round(sfreq * tmax) + 1] for the float
    [tmax = duration - 1 / sfreq]; each lies inside the recording; there
    is one window per anchor and never more windows than start times;
    the sampling rate is that of the recording. *)
Theorem create_epochs_windows_uniform (data : Raw) (start_times : list Q)
    (duration : Q) (ep : Epochs) :
  (0 < sfreq data)%Q ->
  create_epochs data start_times duration = Ok ep ->
  exists tmax : Q,
    Float64.fsub (of_Q duration) (fdiv (num 1) (of_Q (sfreq data))) = num tmax
    /\ let len := Toolkit.window_length (sfreq data) 0 tmax in
       1 <= len
       /\ ep_sfreq ep = sfreq data
       /\ length (ep_windows ep) = length (ep_anchors ep)
       /\ (length (ep_windows ep) <= length start_times)%nat
       /\ Forall (fun a => 0 <= a /\ a + len <= n_times data) (ep_anchors ep)
       /\ Forall (fun w => Z.of_nat (length w) = len) (ep_windows ep).
Proof.
  intros P H.
  destruct (create_epochs_inv _ _ _ _ H) as (anchors & tmax & F & Et & T & _ & ->).
  exists tmax. split; [ exact Et |]. cbv zeta. cbn [ep_sfreq ep_anchors ep_windows].
  pose proof (window_length_pos _ _ P T) as L.
  remember (Toolkit.window_length (sfreq data) 0 tmax) as len.
  remember (filter (fun a => Toolkit.fits data a len = true) anchors) as kept eqn:Ek.
  assert (B : Forall (fun a => 0 <= a /\ a + len <= n_times data) kept).
  { apply Forall_forall. intros a Ha. rewrite Ek in Ha.
    apply list_elem_of_filter in Ha as [Ha _]. now apply fits_bounds. }
  repeat split.
  - exact L.
  - apply length_map.
  - rewrite length_map, Ek.
    etransitivity; [ apply length_filter |]. now rewrite (Forall2_length _ _ _ F).
  - exact B.
  - apply Forall_map. eapply Forall_impl; [ exact B |].
    cbn. intros a [Ha Hb]. apply slice_length; unfold n_times in *; lia.
Qed.

Lemma create_epochs_windows_uniform_witness :
  (0 < sfreq (Examples.recording 200))%Q
  /\ create_epochs (Examples.recording 200) [0%Q] (45 # 1000)
     = Ok Examples.short_epoch
  /\ exists tmax : Q,
       Float64.fsub (of_Q (45 # 1000)) (fdiv (num 1) (of_Q (sfreq (Examples.recording 200))))
       = num tmax
       /\ Forall (fun w => Z.of_nat (length w)
                           = Toolkit.window_length (sfreq (Examples.recording 200)) 0 tmax)
            (ep_windows Examples.short_epoch).
Proof.
  assert (P : (0 < sfreq (Examples.recording 200))%Q) by reflexivity.
  assert (H : create_epochs (Examples.recording 200) [0%Q] (45 # 1000)
              = Ok Examples.short_epoch) by (vm_compute; reflexivity).
  split; [ exact P | split; [ exact H |] ].
  destruct (create_epochs_windows_uniform (Examples.recording 200)
              [0%Q] (45 # 1000) Examples.short_epoch P H) as (tmax & Et & U).
  exists tmax. split; [ exact Et |].
  exact (proj2 (proj2 (proj2 (proj2 (proj2 U))))).
Defined.

Lemma mem_false (x : Z) (l : list Z) : Py.mem x l = false -> x ∉ l.
Proof.
  induction l as [| y l IH]; cbn [Py.mem]; intros H E.
  - now apply not_elem_of_nil in E.
  - apply orb_false_iff in H as [H1 H2]. apply Z.eqb_neq in H1.
    apply elem_of_cons in E as [E | E]; [ congruence | now apply IH ].
Qed.

Lemma has_duplicates_false (l : list Z) : Py.has_duplicates l = false -> NoDup l.
Proof.
  induction l as [| x l IH]; cbn [Py.has_duplicates]; intros H.
  - constructor.
  - apply orb_false_iff in H as [H1 H2].
    constructor; [ now apply mem_false | now apply IH ].
Qed.

(** X15: Two start times that fall on the same sample are refused: when
    [int(t * sfreq)], with the float product, is the same for two
    entries of [start_times], [create_epochs] raises and returns no
    epochs. *)
Theorem create_epochs_refuses_same_sample (data : Raw) (start_times : list Q)
    (duration : Q) (i j : nat) (t1 t2 : Q) :
  start_times !! i = Some t1 ->
  start_times !! j = Some t2 ->
  i ≠ j ->
  event_sample (sfreq data) t1 = event_sample (sfreq data) t2 ->
  is_ok (create_epochs data start_times duration) = false.
Proof.
  intros Hi Hj Hij E.
  destruct (create_epochs data start_times duration) as [ep |] eqn:H; [| reflexivity ].
  exfalso.
  destruct (create_epochs_inv _ _ _ _ H) as (anchors & tmax & F & _ & _ & D & _).
  apply has_duplicates_false in D.
  destruct (Forall2_lookup_l _ _ _ _ _ F Hi) as (a1 & H1 & E1).
  destruct (Forall2_lookup_l _ _ _ _ _ F Hj) as (a2 & H2 & E2).
  apply Hij, (NoDup_lookup _ i j a1 D); [ exact H1 |]. congruence.
Qed.

Lemma create_epochs_refuses_same_sample_witness :
  [1 # 1000; 2 # 1000]%Q !! 0%nat = Some (1 # 1000)%Q
  /\ [1 # 1000; 2 # 1000]%Q !! 1%nat = Some (2 # 1000)%Q
  /\ event_sample (sfreq (Examples.recording 200)) (1 # 1000)
     = event_sample (sfreq (Examples.recording 200)) (2 # 1000)
  /\ is_ok (create_epochs (Examples.recording 200) [1 # 1000; 2 # 1000]%Q 1) = false.
Proof.
  assert (E : event_sample (sfreq (Examples.recording 200)) (1 # 1000)
              = event_sample (sfreq (Examples.recording 200)) (2 # 1000))
    by (vm_compute; reflexivity).
  split; [ reflexivity | split; [ reflexivity | split; [ exact E |] ] ].
  exact (create_epochs_refuses_same_sample (Examples.recording 200)
           [1 # 1000; 2 # 1000]%Q 1 0 1 (1 # 1000)%Q (2 # 1000)%Q
           eq_refl eq_refl ltac:(lia) E).
Defined.

(** ** [load_mne_data]: the path given to the reader *)

Lemma length_append (a b : string) :
  String.length (String.append a b) = (String.length a + String.length b)%nat.
Proof.
  induction a as [| c a IH]; simpl; [ reflexivity | congruence ].
Qed.

Lemma append_assoc (a b c : string) :
  String.append a (String.append b c) = String.append (String.append a b) c.
Proof.
  induction a as [| x a IH]; [ reflexivity |].
  change (String x (String.append a (String.append b c))
          = String x (String.append (String.append a b) c)).
  now rewrite IH.
Qed.

Lemma substring_append_skip (p s : string) (k m : nat) :
  String.substring (String.length p + k) m (String.append p s) = String.substring k m s.
Proof.
  induction p as [| c p IH]; [ reflexivity | exact IH ].
Qed.

Lemma endswith_length (s suffix : string) :
  Str.endswith s suffix = true -> (String.length suffix <= String.length s)%nat.
Proof.
  unfold Str.endswith. intros H. apply andb_true_iff in H as [H _].
  now apply Nat.leb_le.
Qed.

Lemma endswith_append (p s suffix : string) :
  (String.length suffix <= String.length s)%nat ->
  Str.endswith (String.append p s) suffix = Str.endswith s suffix.
Proof.
  intros L. unfold Str.endswith. cbv zeta. rewrite length_append.
  rewrite (proj2 (Nat.leb_le _ _) L).
  rewrite (proj2 (Nat.leb_le (String.length suffix) (String.length p + String.length s)))
    by lia.
  replace (String.length p + String.length s - String.length suffix)%nat
    with (String.length p + (String.length s - String.length suffix))%nat by lia.
  now rewrite substring_append_skip.
Qed.

Lemma path_join_suffix (a b : string) :
  exists p : string, Os.path_join a b = String.append p b.
Proof.
  unfold Os.path_join. destruct (Str.startswith b "/").
  - now exists ""%string.
  - destruct (_ || _).
    + now exists a.
    + exists (String.append a "/"). apply append_assoc.
Qed.

(** X18: For a file name with one of the two suffixes, the path that
    [load_mne_data] gives to the reader ends with the file name, so with
    the same suffix; a file name that starts with "/" is the path, and
    the directory plays no part. *)
Theorem load_mne_data_reader_path {world container : Type}
    (read_raw_fif read_epochs : string -> M world container)
    (directory filename : string) (w : world) :
  Str.endswith filename "_raw.fif" || Str.endswith filename "_epo.fif" = true ->
  exists path : string,
    (load_mne_data read_raw_fif read_epochs directory filename w = read_raw_fif path w
     \/ load_mne_data read_raw_fif read_epochs directory filename w = read_epochs path w)
    /\ (exists p : string, path = String.append p filename)
    /\ Str.endswith path "_raw.fif" = Str.endswith filename "_raw.fif"
    /\ Str.endswith path "_epo.fif" = Str.endswith filename "_epo.fif"
    /\ (Str.startswith filename "/" = true -> path = filename).
Proof.
  intros H. exists (Os.path_join directory filename).
  assert (L : (8 <= String.length filename)%nat).
  { apply orb_true_iff in H as [H | H]; apply endswith_length in H; exact H. }
  destruct (path_join_suffix directory filename) as [p Hp].
  split; [| split; [ now exists p | split; [| split ] ] ].
  - unfold load_mne_data. rewrite H.
    destruct (Str.endswith filename "_raw.fif"); [ left | right ]; apply bind_mret.
  - rewrite Hp. now apply endswith_append.
  - rewrite Hp. now apply endswith_append.
  - intros S. unfold Os.path_join. now rewrite S.
Qed.

Lemma load_mne_data_reader_path_witness :
  Str.endswith "/tmp/s01_raw.fif" "_raw.fif"
    || Str.endswith "/tmp/s01_raw.fif" "_epo.fif" = true
  /\ exists path : string,
       (load_mne_data (Examples.logging_reader "raw") (Examples.logging_reader "epochs")
          "data" "/tmp/s01_raw.fif" []
        = Examples.logging_reader "raw" path []
        \/ load_mne_data (Examples.logging_reader "raw") (Examples.logging_reader "epochs")
             "data" "/tmp/s01_raw.fif" []
           = Examples.logging_reader "epochs" path [])
       /\ (exists p : string, path = String.append p "/tmp/s01_raw.fif")
       /\ Str.endswith path "_raw.fif" = Str.endswith "/tmp/s01_raw.fif" "_raw.fif"
       /\ Str.endswith path "_epo.fif" = Str.endswith "/tmp/s01_raw.fif" "_epo.fif"
       /\ (Str.startswith "/tmp/s01_raw.fif" "/" = true -> path = "/tmp/s01_raw.fif"%string).
Proof.
  assert (H : Str.endswith "/tmp/s01_raw.fif" "_raw.fif"
              || Str.endswith "/tmp/s01_raw.fif" "_epo.fif" = true) by reflexivity.
  split; [ exact H |].
  exact (load_mne_data_reader_path (Examples.logging_reader "raw")
           (Examples.logging_reader "epochs") "data" "/tmp/s01_raw.fif" [] H).
Defined.
